(** * serial_stresstest: a shallow embedding of run.go

    The program probes a serial link: [test_transmission] sends one
    CRC-tagged random packet through every port of a device set,
    [test_for_speed] and [test_for_length] sweep baud rate and packet
    length, [test_for_delay] aggregates latencies.

    Go's [int] is modelled as [Z] with the 64-bit wrap-around written out,
    [float64] as the primitive binary64 floats, byte slices as [list byte].
    Serial devices, the clock and the random generator are an explicit
    [World]; panics are an explicit outcome. *)

From Stdlib Require Import ZArith List Strings.String Strings.Byte Bool Lia Floats.
Import ListNotations.
Open Scope Z_scope.

(** ** Go's machine integers *)

Module GoInt.

Definition min_int : Z := - 2 ^ 63.
Definition max_int : Z := 2 ^ 63 - 1.

Definition is_int (z : Z) : Prop := min_int <= z <= max_int.

(** Two's complement wrap-around of a mathematical result into [int]. *)
Definition wrap (z : Z) : Z := (z + 2 ^ 63) mod 2 ^ 64 - 2 ^ 63.

Definition add (a b : Z) : Z := wrap (a + b).

(** The conversion [uint(x)]. *)
Definition uint (z : Z) : Z := z mod 2 ^ 64.

(** The conversion [float64(x)] of an integer: round to nearest even. *)
Definition float64 (z : Z) : float :=
  SF2Prim (binary_normalize prec emax z 0 false).

End GoInt.

(** ** What a call can do: return, panic, or (in the model only) exhaust
    the fuel of a loop whose termination is not structural. *)

Inductive RuntimeError : Type :=
| DivideByZero                      (* integer divide by zero *)
| MakesliceLen                      (* makeslice: len out of range *)
| SliceBounds (hi cap : nat).       (* slice bounds out of range [:hi] with capacity cap *)

Inductive PanicValue : Type :=
| ErrorText (msg : string)          (* panic(err.Error()) *)
| Runtime (e : RuntimeError).

Inductive Outcome (A : Type) : Type :=
| Returned (a : A)
| Panicked (p : PanicValue)
| OutOfFuel.

Arguments Returned {A} a.
Arguments Panicked {A} p.
Arguments OutOfFuel {A}.

(** ** hash/crc32, strconv and strings, as the Go standard library defines them *)

Definition byte_to_Z (b : byte) : Z := Z.of_N (Byte.to_N b).

Module crc32.

Definition mask32 : Z := 0xFFFFFFFF.

(** One step of the table construction: [crc&1 == 1] selects the
    polynomial. *)
Definition shift_step (poly crc : Z) : Z :=
  if Z.testbit crc 0 then Z.lxor (Z.shiftr crc 1) poly else Z.shiftr crc 1.

Fixpoint shift_steps (j : nat) (poly crc : Z) : Z :=
  match j with
  | O => crc
  | S j' => shift_steps j' poly (shift_step poly crc)
  end.

Definition MakeTable (poly : Z) : list Z :=
  map (fun i => shift_steps 8 poly (Z.of_nat i)) (seq 0 256).

Definition update_byte (tab : list Z) (crc : Z) (v : byte) : Z :=
  Z.lxor (nth (Z.to_nat (Z.lxor (Z.land crc 255) (byte_to_Z v))) tab 0)
         (Z.shiftr crc 8).

Definition Update (crc : Z) (tab : list Z) (p : list byte) : Z :=
  Z.lxor (fold_left (update_byte tab) p (Z.lxor crc mask32)) mask32.

Definition Checksum (data : list byte) (tab : list Z) : Z := Update 0 tab data.

End crc32.

Module strconv.

Definition digits : list byte :=
  list_byte_of_string "0123456789abcdefghijklmnopqrstuvwxyz".

Definition digit (d : Z) : byte := nth (Z.to_nat d) digits "0"%byte.

(** [for u >= b { a[i] = digits[u%b]; u /= b }; a[i] = digits[u]] *)
Fixpoint format_digits (fuel : nat) (base u : Z) (acc : list byte) : list byte :=
  match fuel with
  | O => acc
  | S fuel' =>
      if u <? base then digit u :: acc
      else format_digits fuel' base (u / base) (digit (u mod base) :: acc)
  end.

(** A uint64 has at most 64 digits in any base from 2 up. *)
Definition FormatUint (u : Z) (base : Z) : list byte :=
  format_digits 64 base u [].

(** Reading a lower-case base-16 numeral back, for the round trip. *)
Definition hex_value (b : byte) : Z :=
  let c := byte_to_Z b in
  if (48 <=? c) && (c <=? 57) then c - 48
  else if (97 <=? c) && (c <=? 102) then c - 87
  else 0.

Definition parse_hex (s : list byte) : Z :=
  fold_left (fun acc b => acc * 16 + hex_value b) s 0.

End strconv.

Module strings.

Fixpoint bytes_eqb (a b : list byte) : bool :=
  match a, b with
  | [], [] => true
  | x :: a', y :: b' => Byte.eqb x y && bytes_eqb a' b'
  | _, _ => false
  end.

(** [len(s) >= len(suffix) && s[len(s)-len(suffix):] == suffix] *)
Definition HasSuffix (s suffix : list byte) : bool :=
  (List.length suffix <=? List.length s)%nat
  && bytes_eqb (skipn (List.length s - List.length suffix) s) suffix.

End strings.

(** ** math/rand: [rand.Intn(n)] yields a value in [0, n) from the
    generator's next raw output. *)

Module rand.

Definition Intn (raw : nat) (n : nat) : nat := (raw mod n)%nat.

End rand.

(** ** The payload generator *)

(** The 52 letters are ASCII, so every rune is one byte of the string. *)
Definition letters : list byte :=
  list_byte_of_string "abcdefghijklmnopqrstuvwxyzABCDEFGHIJKLMNOPQRSTUVWXYZ".

(** [randSeq n], reading the draws of the generator in order from [from]. *)
Definition randSeq_from (draw : nat -> nat) (from n : nat) : list byte :=
  map (fun i => nth (rand.Intn (draw i) (List.length letters)) letters "000"%byte)
      (seq from n).

Definition randSeq (draw : nat -> nat) (n : nat) : list byte :=
  randSeq_from draw 0 n.

(** ** The environment of the program *)

(** What one opened port does with the packet written to it: the errors
    of [Write] and [Read], the bytes [Read] stores into the buffer, and the
    time between the two clock readings (a [time.Duration], nanoseconds). *)
Record Session : Type := {
  write_err : option string;
  rx : list byte;
  read_err : option string;
  elapsed : Z
}.

(** The devices answer the [n]-th [serial.Open] of the run; the random
    generator yields its [i]-th raw draw after the [k]-th reseeding. *)
Record World : Type := {
  rand_raw : nat -> nat -> nat;
  serial_open : nat -> string -> Z -> option string;
  serial_session : nat -> string -> Z -> list byte -> Session
}.

Inductive PrintArg : Type :=
| PStr (s : string)
| PFloat (f : float).

Inductive Event : Type :=
| EvSeed                                   (* rand.Seed(time.Now().UnixNano()) *)
| EvOpen (port : string) (baud : Z)        (* serial.Open *)
| EvWrite (port : string) (packet : list byte)
| EvRead (port : string) (size : nat)
| EvClose (port : string)
| EvPrintln (args : list PrintArg).

Record State : Type := {
  seeds : nat;               (* reseedings so far *)
  opens : nat;               (* serial.Open calls so far *)
  deferred : list string;    (* pending deferred closes, last registered first *)
  trace : list Event         (* oldest first *)
}.

Definition initial : State :=
  {| seeds := 0; opens := 0; deferred := []; trace := [] |}.

Definition emit (e : Event) (s : State) : State :=
  {| seeds := seeds s; opens := opens s; deferred := deferred s;
     trace := trace s ++ [e] |}.

(** ** State and panic monad *)

Definition M (A : Type) : Type := State -> Outcome A * State.

Definition ret {A} (a : A) : M A := fun s => (Returned a, s).

Definition bind {A B} (m : M A) (k : A -> M B) : M B :=
  fun s =>
    match m s with
    | (Returned a, s') => k a s'
    | (Panicked p, s') => (Panicked p, s')
    | (OutOfFuel, s') => (OutOfFuel, s')
    end.

Definition panic {A} (p : PanicValue) : M A := fun s => (Panicked p, s).

Definition fuel_out {A} : M A := fun s => (OutOfFuel, s).

Notation "x <- m ;; k" := (bind m (fun x => k))
  (at level 61, m at next level, right associativity).
Notation "' pat <- m ;; k" := (bind m (fun x => match x with pat => k end))
  (at level 61, pat pattern, m at next level, right associativity).
Notation "m ;;; k" := (bind m (fun _ => k))
  (at level 61, right associativity).

Definition Println (args : list PrintArg) : M unit :=
  fun s => (Returned tt, emit (EvPrintln args) s).

(** [rand.Seed(time.Now().UnixNano())]: the generator restarts on the
    draws the world holds for this reseeding. *)
Definition Seed (w : World) : M (nat -> nat) :=
  fun s =>
    (Returned (rand_raw w (seeds s)),
     {| seeds := S (seeds s); opens := opens s; deferred := deferred s;
        trace := trace s ++ [EvSeed] |}).

(** [a / b] on [int]: truncated, panics on a zero divisor. *)
Definition int_div (a b : Z) : M Z :=
  if b =? 0 then panic (Runtime DivideByZero)
  else ret (GoInt.wrap (Z.quot a b)).

(** [check(err)] *)
Definition check (err : option string) : M unit :=
  match err with
  | Some msg => panic (ErrorText msg)
  | None => ret tt
  end.

(** The most bytes the runtime allocates at once, on a 64-bit machine. *)
Definition maxAlloc : Z := 2 ^ 48.

(** [make([]rune, n)] refuses a negative length and a slice of more than
    [maxAlloc] bytes, a rune taking 4 of them. An allocation within the
    bound is taken to succeed. *)
Definition make_len (n : Z) : M nat :=
  if (n <? 0) || (maxAlloc <? 4 * n) then panic (Runtime MakesliceLen)
  else ret (Z.to_nat n).

(** The longest payload [make] allocates: [maxAlloc / 4] runes. *)
Abbreviation max_payload := (2 ^ 46).

(** [buf[0:hi]]: panics beyond the capacity. *)
Definition slice_to (buf : list byte) (hi : nat) : M (list byte) :=
  if (hi <=? List.length buf)%nat then ret (firstn hi buf)
  else panic (Runtime (SliceBounds hi (List.length buf))).

(** [defer]-red calls run when the function exits, last registered first,
    on a return and on a panic alike. *)
Definition run_deferred (s : State) : State :=
  {| seeds := seeds s; opens := opens s; deferred := [];
     trace := trace s ++ map EvClose (deferred s) |}.

Definition with_deferred {A} (body : M A) : M A :=
  fun s => let (out, s') := body s in (out, run_deferred s').

(** ** The serial port *)

Module serial.

Record Port : Type := {
  index : nat;             (* which Open of the run produced it *)
  PortName : string;
  BaudRate : Z
}.

Definition session (w : World) (p : Port) (written : list byte) : Session :=
  serial_session w (index p) (PortName p) (BaudRate p) written.

Definition Open (w : World) (name : string) (baud : Z)
  : M (Port * option string) :=
  fun s =>
    (Returned ({| index := opens s; PortName := name; BaudRate := baud |},
               serial_open w (opens s) name baud),
     {| seeds := seeds s; opens := S (opens s); deferred := deferred s;
        trace := trace s ++ [EvOpen name baud] |}).

Definition Write (w : World) (p : Port) (b : list byte) : M (option string) :=
  fun s => (Returned (write_err (session w p b)),
            emit (EvWrite (PortName p) b) s).

(** [buf := make([]byte, size)] as [Read] leaves it, and the error. The
    device answers what was [written] to it. *)
Definition Read (w : World) (p : Port) (written : list byte) (size : nat)
  : M (list byte * option string) :=
  fun s =>
    let got := rx (session w p written) in
    (Returned (firstn size got ++ repeat "000"%byte (size - List.length got),
               read_err (session w p written)),
     emit (EvRead (PortName p) size) s).

(** [defer port.Close()] *)
Definition defer_Close (p : Port) : M unit :=
  fun s =>
    (Returned tt,
     {| seeds := seeds s; opens := opens s;
        deferred := PortName p :: deferred s; trace := trace s |}).

End serial.

(** ** test_transmission *)

Definition buffer_size : nat := Z.to_nat 10000.

Definition checksum_of (data : list byte) : list byte :=
  let crc32q := crc32.MakeTable 0xEDB88320 in
  let checksum_uint := crc32.Checksum data crc32q in
  strconv.FormatUint checksum_uint 16.

(** The loop over the ports (run.go, lines 55 to 92). *)
Fixpoint tx_ports (w : World) (speed : Z) (packet checksum : list byte)
    (ports : list string) (delays : list float) : M (bool * list float) :=
  match ports with
  | [] => ret (true, delays)
  | port :: rest =>
      '(port, err) <- serial.Open w port (GoInt.uint speed) ;;
      check err ;;;
      (* start := time.Now() *)
      _ <- serial.Write w port packet ;;
      '(buf, _) <- serial.Read w port packet buffer_size ;;
      (* elapsed := time.Now().Sub(start) *)
      let elapsed := elapsed (serial.session w port packet) in
      serial.defer_Close port ;;;
      check err ;;;
      head <- slice_to buf (List.length packet) ;;
      let packet_valid := strings.HasSuffix head checksum in
      if negb packet_valid then ret (false, delays)
      else
        tx_ports w speed packet checksum rest
          (delays ++ [GoInt.float64 elapsed])
  end.

Definition test_transmission (w : World) (ports : list string)
    (length speed : Z) : M (bool * list float) :=
  with_deferred (
    draw <- Seed w ;;
    n <- make_len length ;;
    let data := randSeq draw n in
    let delays := [] in
    let checksum := checksum_of data in
    let packet := data ++ checksum in
    tx_ports w speed packet checksum ports delays).

(** ** test_for_speed *)

(** The stepped sweep (lines 120 to 130). It yields the last working speed
    and [min_speed], which a failing step overwrites before the break. The
    [res] of line 122 is declared by [:=] inside the loop body. *)
Fixpoint speed_sweep (fuel : nat) (w : World) (ports : list string)
    (length max_speed min_speed speed last_working_speed : Z) : M (Z * Z) :=
  if speed <? max_speed then
    match fuel with
    | O => fuel_out
    | S fuel' =>
        '(res, _) <- test_transmission w ports length speed ;;
        if res then
          step <- int_div max_speed min_speed ;;
          speed_sweep fuel' w ports length max_speed min_speed
            (GoInt.add speed step) speed
        else ret (last_working_speed, speed)
    end
  else ret (last_working_speed, min_speed).

(** The outer loop (lines 116 to 134); [res] is the variable of line 114,
    which no statement assigns. *)
Fixpoint speed_passes (passes fuel : nat) (w : World) (ports : list string)
    (length max_speed : Z) (res : bool) (min_speed last_working_speed : Z)
    : M Z :=
  match passes with
  | O => ret last_working_speed
  | S passes' =>
      q <- int_div max_speed min_speed ;;
      if q <? 1 then ret last_working_speed
      else
        '(last_working_speed, min_speed) <-
          speed_sweep fuel w ports length max_speed min_speed min_speed
            last_working_speed ;;
        if res then ret last_working_speed
        else speed_passes passes' fuel w ports length max_speed res
               min_speed last_working_speed
  end.

Definition test_for_speed (fuel : nat) (w : World) (ports : list string)
    (length min_speed max_speed : Z) : M Z :=
  let res := false in
  let last_working_speed := 0 in
  speed_passes 2 fuel w ports length max_speed res min_speed last_working_speed.

(** ** test_for_length *)

Inductive SweepExit : Type :=
| Completed (last_working_length : Z)     (* the loop condition failed *)
| ReturnNow (value : Z).                  (* the return of line 164 *)

Fixpoint length_sweep (fuel : nat) (w : World) (ports : list string)
    (speed max_length length last_working_length : Z) : M SweepExit :=
  if length <? max_length then
    match fuel with
    | O => fuel_out
    | S fuel' =>
        '(res, _) <- test_transmission w ports length speed ;;
        if res then
          length_sweep fuel' w ports speed max_length (GoInt.add length 1) length
        else ret (ReturnNow last_working_length)
    end
  else ret (Completed last_working_length).

Fixpoint length_passes (passes : nat) (w : World) (ports : list string)
    (speed min_length max_length last_working_length : Z) : M Z :=
  match passes with
  | O => ret last_working_length
  | S passes' =>
      exit <- length_sweep (Z.to_nat (max_length - min_length)) w ports speed
                max_length min_length last_working_length ;;
      match exit with
      | ReturnNow v => ret v
      | Completed last_working_length =>
          length_passes passes' w ports speed min_length max_length
            last_working_length
      end
  end.

Definition test_for_length (w : World) (ports : list string)
    (speed min_length max_length : Z) : M Z :=
  let last_working_length := 0 in
  length_passes 2 w ports speed min_length max_length last_working_length.

(** ** test_for_delay *)

(** The sampling loop (lines 188 to 200). *)
Fixpoint delay_runs (fuel : nat) (w : World) (ports : list string)
    (length speed samples i : Z) (delays : list float) : M (list float) :=
  if i <? samples then
    match fuel with
    | O => fuel_out
    | S fuel' =>
        '(res, d) <- test_transmission w ports length speed ;;
        if negb res then ret delays
        else delay_runs fuel' w ports length speed samples (GoInt.add i 1)
               (delays ++ d)
    end
  else ret delays.

Record Stats : Type := {
  total : float;
  min_delay : float;
  max_delay : float
}.

(** One round of the loop of lines 205 to 219. *)
Definition stats_step (st : Stats) (value : float) : Stats :=
  let total := PrimFloat.add (total st) value in
  let min_delay := if PrimFloat.eqb (min_delay st) 0 then value else min_delay st in
  let max_delay := if PrimFloat.eqb (max_delay st) 0 then value else max_delay st in
  let min_delay := if PrimFloat.ltb value min_delay then value else min_delay in
  let max_delay := if PrimFloat.ltb max_delay value then value else max_delay in
  {| total := total; min_delay := min_delay; max_delay := max_delay |}.

Definition stats_of (delays : list float) : Stats :=
  fold_left stats_step delays
    {| total := 0%float; min_delay := 0%float; max_delay := 0%float |}.

Definition average (delays : list float) : float :=
  PrimFloat.div (total (stats_of delays))
                (GoInt.float64 (Z.of_nat (List.length delays))).

Definition test_for_delay (w : World) (ports : list string)
    (length speed samples : Z) : M float :=
  delays <- delay_runs (Z.to_nat samples) w ports length speed samples 0 [] ;;
  let st := stats_of delays in
  let avg_delay := average delays in
  Println [PStr "Maximum delay:"; PFloat (max_delay st); PStr "ms"] ;;;
  Println [PStr "Average delay:"; PFloat avg_delay; PStr "ms"] ;;;
  Println [PStr "Minimum delay:"; PFloat (min_delay st); PStr "ms"] ;;;
  ret avg_delay.

(** * Vocabulary of the statements *)

(** ** What one port of the set does in a call *)

Inductive Verdict : Type :=
| Valid (delay : float)       (* opened, and the reply carries the checksum *)
| Invalid                     (* opened, and the reply does not *)
| Fatal (p : PanicValue).     (* the step panics *)

(** The buffer after the read on the [n]-th opened port. *)
Definition received (w : World) (speed : Z) (packet : list byte) (n : nat)
    (port : string) : list byte :=
  let got := rx (serial_session w n port (GoInt.uint speed) packet) in
  firstn buffer_size got ++ repeat "000"%byte (buffer_size - List.length got).

Definition port_verdict (w : World) (speed : Z) (packet checksum : list byte)
    (n : nat) (port : string) : Verdict :=
  match serial_open w n port (GoInt.uint speed) with
  | Some msg => Fatal (ErrorText msg)
  | None =>
      let buf := received w speed packet n port in
      if (List.length packet <=? List.length buf)%nat then
        if strings.HasSuffix (firstn (List.length packet) buf) checksum
        then Valid (GoInt.float64
                      (elapsed (serial_session w n port (GoInt.uint speed) packet)))
        else Invalid
      else Fatal (Runtime (SliceBounds (List.length packet) (List.length buf)))
  end.

(** The verdicts of the ports of a set, the first of which is the [n]-th
    port opened in the run. *)
Fixpoint verdicts (w : World) (speed : Z) (packet checksum : list byte)
    (n : nat) (ports : list string) : list Verdict :=
  match ports with
  | [] => []
  | port :: rest =>
      port_verdict w speed packet checksum n port
      :: verdicts w speed packet checksum (S n) rest
  end.

Definition is_valid (v : Verdict) : Prop :=
  match v with Valid _ => True | _ => False end.

(** The payload, checksum text and packet of the call that starts in [s]. *)
Definition payload_at (w : World) (s : State) (length : Z) : list byte :=
  randSeq (rand_raw w (seeds s)) (Z.to_nat length).

Definition packet_at (w : World) (s : State) (length : Z) : list byte :=
  payload_at w s length ++ checksum_of (payload_at w s length).

(** The verdicts of the ports in the call that starts in [s]. *)
Definition call_verdicts (w : World) (ports : list string) (length speed : Z)
    (s : State) : list Verdict :=
  verdicts w speed (packet_at w s length) (checksum_of (payload_at w s length))
    (opens s) ports.

(** The state after the reseeding that opens a call. *)
Definition seeded (s : State) : State :=
  {| seeds := S (seeds s); opens := opens s; deferred := deferred s;
     trace := trace s ++ [EvSeed] |}.

(** The state in which the loop leaves the [n]-th port. *)
Definition after_port (w : World) (speed : Z) (packet : list byte)
    (port : string) (s : State) : State :=
  let baud := GoInt.uint speed in
  match serial_open w (opens s) port baud with
  | Some _ =>
      {| seeds := seeds s; opens := S (opens s); deferred := deferred s;
         trace := trace s ++ [EvOpen port baud] |}
  | None =>
      {| seeds := seeds s; opens := S (opens s);
         deferred := port :: deferred s;
         trace := ((trace s ++ [EvOpen port baud]) ++ [EvWrite port packet])
                  ++ [EvRead port buffer_size] |}
  end.

(** ** Numbers and numerals *)

(** The range of a uint32. *)
Definition u32 (z : Z) : Prop := 0 <= z < 2 ^ 32.

(** Reading digits onto an accumulator. *)
Definition parse_from (acc : Z) (s : list byte) : Z :=
  fold_left (fun acc b => acc * 16 + strconv.hex_value b) s acc.

Definition is_hex_digit (b : byte) : Prop :=
  In b (list_byte_of_string "0123456789abcdef").

(** ** Concrete links *)

Definition echo_session (packet : list byte) (ns : Z) : Session :=
  {| write_err := None; rx := packet; read_err := None; elapsed := ns |}.

Definition silent_session : Session :=
  {| write_err := None; rx := []; read_err := None; elapsed := 1000000 |}.

(** Every port returns what was written to it, after one millisecond. *)
Definition loopback : World :=
  {| rand_raw := fun _ i => i;
     serial_open := fun _ _ _ => None;
     serial_session := fun _ _ _ packet => echo_session packet 1000000 |}.

(** The link echoes on the first [good] opened ports and is silent after. *)
Definition fading (good : nat) : World :=
  {| rand_raw := fun _ i => i;
     serial_open := fun _ _ _ => None;
     serial_session := fun n _ _ packet =>
       if (n <? good)%nat then echo_session packet 1000000 else silent_session |}.

(** Every port opens, and then fails both the write and the read. *)
Definition broken_io : World :=
  {| rand_raw := fun _ i => i;
     serial_open := fun _ _ _ => None;
     serial_session := fun _ _ _ _ =>
       {| write_err := Some "write: input/output error"%string;
          rx := [];
          read_err := Some "EOF"%string;
          elapsed := 1000 |} |}.

(** No port can be opened. *)
Definition unplugged : World :=
  {| rand_raw := fun _ i => i;
     serial_open := fun _ _ _ => Some "open: no such file or directory"%string;
     serial_session := fun _ _ _ _ => silent_session |}.

(** A loopback whose clock is too coarse to see the first exchange. *)
Definition coarse_clock : World :=
  {| rand_raw := fun _ i => i;
     serial_open := fun _ _ _ => None;
     serial_session := fun n _ _ packet =>
       echo_session packet (if (n =? 0)%nat then 0 else 1000000) |}.

(** ** What the trace shows *)

(** The packets written, with the port each went to, in order. *)
Definition writes (t : list Event) : list (string * list byte) :=
  flat_map (fun e => match e with EvWrite port b => [(port, b)] | _ => [] end) t.

(** The lines printed, in order. *)
Definition printed (t : list Event) : list (list PrintArg) :=
  flat_map (fun e => match e with EvPrintln args => [args] | _ => [] end) t.

(** The packets of a call that generates a payload of [n] letters anew for
    every port, as the specification words step 1 of the per-port
    procedure: the [i]-th port is sent the generator's next [n] draws. *)
Definition fresh_packets (draw : nat -> nat) (n : nat) (ports : list string)
    : list (string * list byte) :=
  map (fun '(i, port) =>
         let data := randSeq_from draw (i * n) n in
         (port, data ++ checksum_of data))
      (combine (seq 0 (List.length ports)) ports).

(** In the call that starts in [s] the loop reaches the [i]-th port of the
    set and opens it: every port before it passed verification and its
    [serial.Open] succeeds. *)
Definition reached_and_opened (w : World) (ports : list string)
    (length speed : Z) (s : State) (i : nat) : Prop :=
  Forall is_valid (firstn i (call_verdicts w ports length speed s))
  /\ exists port,
       nth_error ports i = Some port
       /\ serial_open w (opens s + i) port (GoInt.uint speed) = None.

(** The three lines of a profile without a sample. *)
Definition no_data_report (s : State) : State :=
  emit (EvPrintln [PStr "Minimum delay:"; PFloat 0; PStr "ms"])
    (emit (EvPrintln [PStr "Average delay:"; PFloat nan; PStr "ms"])
       (emit (EvPrintln [PStr "Maximum delay:"; PFloat 0; PStr "ms"]) s)).

(** ** The history of a length sweep *)

(** [succeeds w ports speed s l l' s']: from the state [s] the
    transmissions at the lengths [l], [l + 1], ... below [l'] all return
    [true], one after the other, and leave the state [s']. *)
Inductive succeeds (w : World) (ports : list string) (speed : Z)
    : State -> Z -> Z -> State -> Prop :=
| succeeds_none s l : succeeds w ports speed s l l s
| succeeds_next s l d s1 l' s' :
    test_transmission w ports l speed s = (Returned (true, d), s1) ->
    succeeds w ports speed s1 (l + 1) l' s' ->
    succeeds w ports speed s l l' s'.

(** The transmission at the length [f] from the state [s] returns [false]. *)
Definition fails_at (w : World) (ports : list string) (speed : Z)
    (s : State) (f : Z) (s' : State) : Prop :=
  exists d, test_transmission w ports f speed s = (Returned (false, d), s').

(** The four ways a length search can go, with the value it yields. *)

(** The first sweep reaches the length [f], which fails. *)
Definition first_sweep_fails (w : World) (ports : list string)
    (speed min_length max_length : Z) (s : State)
    (result : Outcome Z * State) : Prop :=
  exists f s1,
    min_length <= f < max_length
    /\ succeeds w ports speed s min_length f s1
    /\ fails_at w ports speed s1 f (snd result)
    /\ fst result = Returned (if f =? min_length then 0 else f - 1).

(** The first sweep completes and the second reaches [f], which fails. *)
Definition second_sweep_fails (w : World) (ports : list string)
    (speed min_length max_length : Z) (s : State)
    (result : Outcome Z * State) : Prop :=
  exists f s1 s2,
    min_length <= f < max_length
    /\ succeeds w ports speed s min_length max_length s1
    /\ succeeds w ports speed s1 min_length f s2
    /\ fails_at w ports speed s2 f (snd result)
    /\ fst result
       = Returned (if f =? min_length then max_length - 1 else f - 1).

(** Both sweeps complete (each is empty when the range is). *)
Definition both_sweeps_complete (w : World) (ports : list string)
    (speed min_length max_length : Z) (s : State)
    (result : Outcome Z * State) : Prop :=
  exists s1,
    succeeds w ports speed s min_length (Z.max min_length max_length) s1
    /\ succeeds w ports speed s1 min_length (Z.max min_length max_length)
         (snd result)
    /\ fst result
       = Returned (if min_length <? max_length then max_length - 1 else 0).

(** A transmission of the range panics, and so does the search. *)
Definition sweep_panics (w : World) (ports : list string)
    (speed min_length max_length : Z) (result : Outcome Z * State) : Prop :=
  exists p f s0,
    min_length <= f < max_length
    /\ test_transmission w ports f speed s0 = (Panicked p, snd result)
    /\ fst result = Panicked p.

(** The sentence of the specification on failed lengths: the value returned
    is no length whose transmission failed in a sweep of the call, be it
    the sweep that starts the call or the one that follows a completed
    sweep. *)
Definition never_returns_failed_length (w : World) (ports : list string)
    (speed min_length max_length : Z) (s : State) : Prop :=
  forall r,
    fst (test_for_length w ports speed min_length max_length s) = Returned r ->
    forall s0 s1 s2,
      s0 = s \/ succeeds w ports speed s min_length max_length s0 ->
      succeeds w ports speed s0 min_length r s1 ->
      ~ fails_at w ports speed s1 r s2.

(** ** More of the trace, and links that echo *)

(** The ports closed, in order. *)
Definition closes (t : list Event) : list string :=
  flat_map (fun e => match e with EvClose port => [port] | _ => [] end) t.

(** Every port opens and returns the bytes written to it. *)
Definition echoes (w : World) : Prop :=
  forall n port baud packet,
    serial_open w n port baud = None
    /\ rx (serial_session w n port baud packet) = packet.

(** Between the states [s] and [s'] of a run, a transmission of [length]
    letters at [speed] returned [true]. *)
Definition verified_between (w : World) (ports : list string)
    (length speed : Z) (s s' : State) : Prop :=
  exists s0 d s1,
    test_transmission w ports length speed s0 = (Returned (true, d), s1)
    /\ (seeds s <= seeds s0)%nat /\ (seeds s1 <= seeds s')%nat.


(** The value a sweep of lengths leaves, whichever way it ends. *)
Definition exit_value (e : SweepExit) : Z :=
  match e with Completed v => v | ReturnNow v => v end.

(** ** The runs of a profile *)

(** [collected w ports length speed s k ds s']: from the state [s], [k]
    transmissions in a row return [true]; [ds] are their latencies, in
    order, and [s'] is the state they leave. *)
Inductive collected (w : World) (ports : list string) (length speed : Z)
    : State -> nat -> list float -> State -> Prop :=
| collected_none s : collected w ports length speed s 0 [] s
| collected_next s d s1 k ds s' :
    test_transmission w ports length speed s = (Returned (true, d), s1) ->
    collected w ports length speed s1 k ds s' ->
    collected w ports length speed s (S k) (d ++ ds) s'.

(** The three lines the profiler prints for the latencies [ds]. *)
Definition report (ds : list float) (s : State) : State :=
  emit (EvPrintln [PStr "Minimum delay:"; PFloat (min_delay (stats_of ds));
                   PStr "ms"])
    (emit (EvPrintln [PStr "Average delay:"; PFloat (average ds); PStr "ms"])
       (emit (EvPrintln [PStr "Maximum delay:";
                         PFloat (max_delay (stats_of ds)); PStr "ms"]) s)).

(** ** main *)

(** The decimal text that [fmt.Println] prints for an [int] operand. *)
Definition Itoa (z : Z) : string :=
  string_of_list_byte
    (if z <? 0 then "-"%byte :: strconv.FormatUint (- z) 10
     else strconv.FormatUint z 10).

(** [main] (lines 236 to 257); an [int] operand of [Println] is recorded
    as its decimal text. *)
Definition main (fuel : nat) (w : World) : M unit :=
  let serials := ["COM15"%string] in
  last_working_speed <- test_for_speed fuel w serials 20 9600 1000000 ;;
  Println [PStr "Last known working speed:"; PStr (Itoa last_working_speed)] ;;;
  last_working_length <-
    test_for_length w serials last_working_speed 100 100000 ;;
  Println [PStr "Last known working length:";
           PStr (Itoa last_working_length)] ;;;
  avg_delay <- test_for_delay w serials 10 last_working_speed 10 ;;
  Println [PStr "Average delay:"; PFloat avg_delay;
           PStr "ms for packet length:"; PStr (Itoa 10)] ;;;
  avg_delay <-
    test_for_delay w serials last_working_length last_working_speed 10 ;;
  Println [PStr "Average delay:"; PFloat avg_delay;
           PStr "ms for packet length:"; PStr (Itoa last_working_length)] ;;;
  ret tt.

(** * Theorems *)

(** Closes the goals that a literal lies in the range of [int]. *)
Ltac int_range :=
  unfold GoInt.is_int, GoInt.min_int, GoInt.max_int in *; lia.

(** ** The monad *)

Lemma bind_returned {A B} (m : M A) (k : A -> M B) s a s' :
  m s = (Returned a, s') -> bind m k s = k a s'.
Proof. unfold bind. intros ->. reflexivity. Qed.

Lemma bind_panicked {A B} (m : M A) (k : A -> M B) s p s' :
  m s = (Panicked p, s') -> bind m k s = (Panicked p, s').
Proof. unfold bind. intros ->. reflexivity. Qed.

(** ** One port of the loop *)

Lemma tx_ports_step w speed packet checksum port rest delays s :
  tx_ports w speed packet checksum (port :: rest) delays s =
  match port_verdict w speed packet checksum (opens s) port with
  | Valid d =>
      tx_ports w speed packet checksum rest (delays ++ [d])
        (after_port w speed packet port s)
  | Invalid => (Returned (false, delays), after_port w speed packet port s)
  | Fatal p => (Panicked p, after_port w speed packet port s)
  end.
Proof.
  unfold port_verdict, after_port, received.
  cbn [tx_ports]. unfold bind at 1. cbn [serial.Open].
  destruct (serial_open w (opens s) port (GoInt.uint speed)) as [msg|] eqn:E.
  - reflexivity.
  - cbn -[buffer_size]. unfold slice_to, serial.session. cbn -[buffer_size].
    set (buf := firstn buffer_size _ ++ repeat _ _).
    destruct (List.length packet <=? List.length buf)%nat; [|reflexivity].
    cbn -[buffer_size].
    destruct (strings.HasSuffix (firstn (List.length packet) buf) checksum);
      reflexivity.
Qed.

Lemma after_port_opens w speed packet port s :
  opens (after_port w speed packet port s) = S (opens s).
Proof. unfold after_port. destruct serial_open; reflexivity. Qed.

(** ** The loop over the ports *)

Lemma tx_ports_all_valid w speed packet checksum ports :
  forall delays s,
    Forall is_valid (verdicts w speed packet checksum (opens s) ports) ->
    exists ds,
      fst (tx_ports w speed packet checksum ports delays s)
      = Returned (true, delays ++ ds)
      /\ map Valid ds = verdicts w speed packet checksum (opens s) ports.
Proof.
  induction ports as [|port rest IH]; intros delays s Hall.
  - exists []. cbn. rewrite app_nil_r. split; reflexivity.
  - cbn [verdicts] in *. inversion Hall as [|v vs Hv Hrest]; subst.
    rewrite tx_ports_step.
    destruct (port_verdict w speed packet checksum (opens s) port) as [d| |p];
      try contradiction.
    rewrite <- (after_port_opens w speed packet port s) in Hrest.
    destruct (IH (delays ++ [d]) _ Hrest) as (ds & Hfst & Hmap).
    exists (d :: ds). split.
    + rewrite Hfst, <- app_assoc. reflexivity.
    + cbn [map]. rewrite Hmap, after_port_opens. reflexivity.
Qed.

Lemma tx_ports_true_valid w speed packet checksum ports :
  forall delays s ds,
    fst (tx_ports w speed packet checksum ports delays s) = Returned (true, ds) ->
    Forall is_valid (verdicts w speed packet checksum (opens s) ports).
Proof.
  induction ports as [|port rest IH]; intros delays s ds H.
  - constructor.
  - cbn [verdicts]. rewrite tx_ports_step in H.
    destruct (port_verdict w speed packet checksum (opens s) port) as [d| |p];
      try discriminate.
    constructor; [exact I|].
    rewrite <- (after_port_opens w speed packet port s). eapply IH, H.
Qed.

Lemma tx_ports_first_invalid w speed packet checksum ports :
  forall k delays s,
    Forall is_valid (firstn k (verdicts w speed packet checksum (opens s) ports)) ->
    nth_error (verdicts w speed packet checksum (opens s) ports) k = Some Invalid ->
    exists ds,
      fst (tx_ports w speed packet checksum ports delays s)
      = Returned (false, delays ++ ds)
      /\ map Valid ds
         = firstn k (verdicts w speed packet checksum (opens s) ports)
      /\ tx_ports w speed packet checksum (firstn (S k) ports) delays s
         = tx_ports w speed packet checksum ports delays s.
Proof.
  induction ports as [|port rest IH]; intros k delays s Hpre Hk.
  - destruct k; discriminate.
  - cbn [verdicts] in *. cbn [firstn]. rewrite !tx_ports_step.
    destruct k as [|k].
    + cbn in Hk. injection Hk as Hk. rewrite Hk.
      exists []. rewrite app_nil_r. repeat split; reflexivity.
    + cbn [firstn nth_error] in *. inversion Hpre as [|v vs Hv Hrest]; subst.
      destruct (port_verdict w speed packet checksum (opens s) port) as [d| |p];
        try contradiction.
      rewrite <- (after_port_opens w speed packet port s) in Hrest, Hk.
      destruct (IH k (delays ++ [d]) _ Hrest Hk) as (ds & Hfst & Hmap & Heq).
      exists (d :: ds). repeat split.
      * rewrite Hfst, <- app_assoc. reflexivity.
      * cbn [map]. rewrite Hmap, after_port_opens. reflexivity.
      * exact Heq.
Qed.

(** ** The whole call *)

Lemma make_len_makes n s :
  0 <= n <= max_payload -> make_len n s = (Returned (Z.to_nat n), s).
Proof.
  intros Hn. unfold make_len, maxAlloc.
  destruct (n <? 0) eqn:E1; [apply Z.ltb_lt in E1; lia|].
  destruct (2 ^ 48 <? 4 * n) eqn:E2; [apply Z.ltb_lt in E2; lia|].
  reflexivity.
Qed.

Lemma make_len_refuses n s :
  n < 0 \/ max_payload < n ->
  make_len n s = (Panicked (Runtime MakesliceLen), s).
Proof.
  intros Hn. unfold make_len, maxAlloc.
  destruct (n <? 0) eqn:E1; [reflexivity|].
  destruct (2 ^ 48 <? 4 * n) eqn:E2; [reflexivity|].
  apply Z.ltb_ge in E1, E2. lia.
Qed.

Lemma length_in_range length :
  0 <= length <= max_payload \/ (length < 0 \/ max_payload < length).
Proof. lia. Qed.

Lemma test_transmission_unfold w ports length speed s :
  0 <= length <= max_payload ->
  test_transmission w ports length speed s =
  let r := tx_ports w speed (packet_at w s length)
             (checksum_of (payload_at w s length)) ports [] (seeded s) in
  (fst r, run_deferred (snd r)).
Proof.
  intros Hlen. unfold test_transmission, with_deferred, bind, Seed.
  rewrite (make_len_makes length _ Hlen).
  lazy beta iota zeta. unfold packet_at, payload_at, seeded.
  destruct tx_ports. reflexivity.
Qed.

(** Outside the lengths [make] accepts the call panics right after the
    reseeding. *)
Lemma test_transmission_refused w ports length speed s :
  length < 0 \/ max_payload < length ->
  test_transmission w ports length speed s
  = (Panicked (Runtime MakesliceLen), run_deferred (seeded s)).
Proof.
  intros Hlen. unfold test_transmission, with_deferred, bind, Seed.
  rewrite (make_len_refuses length _ Hlen). reflexivity.
Qed.

Lemma test_transmission_negative w ports length speed s :
  length < 0 ->
  test_transmission w ports length speed s
  = (Panicked (Runtime MakesliceLen), run_deferred (seeded s)).
Proof. intros Hlen. apply test_transmission_refused. left. exact Hlen. Qed.

(** C1, as amended. For a length from 0 up to the longest payload that
    [make] allocates, the call returns [true] exactly when every port of
    the set passes verification, and then with the latencies of all ports
    in order. At the first port whose reply fails verification it returns
    [false] with one latency per port before it, in order, and touches no
    later port: the call on the set cut after that port is the same
    call. *)
Theorem C1_first_failure_aborts w ports length speed s :
  0 <= length <= max_payload ->
  let vs := call_verdicts w ports length speed s in
  let result := test_transmission w ports length speed s in
  ((exists ds, fst result = Returned (true, ds)) <-> Forall is_valid vs)
  /\ (Forall is_valid vs ->
      exists ds, fst result = Returned (true, ds) /\ map Valid ds = vs)
  /\ (forall k,
        Forall is_valid (firstn k vs) -> nth_error vs k = Some Invalid ->
        exists ds,
          fst result = Returned (false, ds)
          /\ map Valid ds = firstn k vs
          /\ List.length ds = k
          /\ test_transmission w (firstn (S k) ports) length speed s = result).
Proof.
  intros Hlen vs result. subst vs result. unfold call_verdicts.
  rewrite !test_transmission_unfold by assumption. cbn zeta. cbn [fst].
  change (opens s) with (opens (seeded s)).
  assert (Hvalid : Forall is_valid
            (verdicts w speed (packet_at w s length)
               (checksum_of (payload_at w s length)) (opens (seeded s)) ports) ->
          exists ds,
            fst (tx_ports w speed (packet_at w s length)
                   (checksum_of (payload_at w s length)) ports [] (seeded s))
            = Returned (true, ds)
            /\ map Valid ds
               = verdicts w speed (packet_at w s length)
                   (checksum_of (payload_at w s length)) (opens (seeded s)) ports).
  { intros Hall.
    destruct (tx_ports_all_valid w speed _ _ ports [] (seeded s) Hall)
      as (ds & Hfst & Hmap).
    exists ds. split; assumption. }
  split; [|split].
  - split.
    + intros [ds Hds]. eapply tx_ports_true_valid, Hds.
    + intros Hall. destruct (Hvalid Hall) as (ds & Hfst & _). eauto.
  - exact Hvalid.
  - intros k Hpre Hk.
    destruct (tx_ports_first_invalid w speed _ _ ports k [] (seeded s) Hpre Hk)
      as (ds & Hfst & Hmap & Heq).
    exists ds. repeat split.
    + exact Hfst.
    + exact Hmap.
    + rewrite <- (length_map Valid), Hmap. apply firstn_length_le.
      apply Nat.lt_le_incl, nth_error_Some. rewrite Hk. discriminate.
    + rewrite test_transmission_unfold by assumption. cbn zeta.
      rewrite Heq. reflexivity.
Qed.

(** ** The checksum is a 32-bit value *)

Lemma u32_land_ones z : u32 z <-> Z.land z (Z.ones 32) = z.
Proof.
  unfold u32. rewrite Z.land_ones by lia. split.
  - intros H. apply Z.mod_small. exact H.
  - intros H. rewrite <- H. apply Z.mod_pos_bound. lia.
Qed.

Lemma u32_lxor a b : u32 a -> u32 b -> u32 (Z.lxor a b).
Proof.
  rewrite !u32_land_ones. intros Ha Hb.
  apply Z.bits_inj'. intros n _.
  apply (f_equal (fun z => Z.testbit z n)) in Ha, Hb.
  cbv beta in Ha, Hb. rewrite Z.land_spec in Ha, Hb.
  rewrite Z.land_spec, !Z.lxor_spec.
  destruct (Z.testbit a n), (Z.testbit b n), (Z.testbit (Z.ones 32) n);
    cbn in *; congruence.
Qed.

Lemma u32_shiftr a k : 0 <= k -> u32 a -> u32 (Z.shiftr a k).
Proof.
  unfold u32. intros Hk [H0 H1]. rewrite Z.shiftr_div_pow2 by assumption.
  assert (0 < 2 ^ k) by (apply Z.pow_pos_nonneg; lia).
  split.
  - apply Z.div_pos; assumption.
  - apply Z.le_lt_trans with a; [|assumption].
    apply Z.div_le_upper_bound; [assumption|]. nia.
Qed.

Lemma u32_shift_steps poly j : u32 poly -> forall crc, u32 crc ->
  u32 (crc32.shift_steps j poly crc).
Proof.
  intros Hp. induction j as [|j IH]; intros crc Hc; cbn [crc32.shift_steps].
  - exact Hc.
  - apply IH. unfold crc32.shift_step. destruct (Z.testbit crc 0).
    + apply u32_lxor; [apply u32_shiftr; [lia|exact Hc]|exact Hp].
    + apply u32_shiftr; [lia|exact Hc].
Qed.

Lemma u32_table poly i : u32 poly -> u32 (nth i (crc32.MakeTable poly) 0).
Proof.
  intros Hp. destruct (Nat.lt_ge_cases i (List.length (crc32.MakeTable poly)))
    as [Hi|Hi].
  - unfold crc32.MakeTable in *. rewrite length_map, length_seq in Hi.
    rewrite (nth_indep _ 0 (crc32.shift_steps 8 poly (Z.of_nat 0)))
      by (rewrite length_map, length_seq; exact Hi).
    rewrite (map_nth (fun i => crc32.shift_steps 8 poly (Z.of_nat i))).
    rewrite seq_nth by exact Hi.
    apply u32_shift_steps; [exact Hp|]. unfold u32. cbn [Nat.add].
    change (2 ^ 32) with 4294967296. lia.
  - rewrite nth_overflow by exact Hi. unfold u32. lia.
Qed.

Lemma u32_fold_update poly p : u32 poly -> forall crc, u32 crc ->
  u32 (fold_left (crc32.update_byte (crc32.MakeTable poly)) p crc).
Proof.
  intros Hp. induction p as [|v p IH]; intros crc Hc; cbn [fold_left].
  - exact Hc.
  - apply IH. unfold crc32.update_byte. apply u32_lxor.
    + apply u32_table, Hp.
    + apply u32_shiftr; [lia|exact Hc].
Qed.

Lemma Checksum_u32 data : u32 (crc32.Checksum data (crc32.MakeTable 0xEDB88320)).
Proof.
  assert (Hm : u32 crc32.mask32) by (unfold u32, crc32.mask32; lia).
  unfold crc32.Checksum, crc32.Update. apply u32_lxor; [|exact Hm].
  apply u32_fold_update.
  - unfold u32. lia.
  - apply u32_lxor; [unfold u32; lia|exact Hm].
Qed.

(** ** The base-16 text of a number *)

Lemma parse_from_app acc a b :
  parse_from acc (a ++ b) = parse_from (parse_from acc a) b.
Proof. unfold parse_from. apply fold_left_app. Qed.

Lemma digit_hex u : 0 <= u < 16 ->
  strconv.hex_value (strconv.digit u) = u
  /\ is_hex_digit (strconv.digit u)
  /\ (u <> 0 -> strconv.digit u <> "0"%byte)
  /\ (u = 0 -> strconv.digit u = "0"%byte).
Proof.
  intros H.
  assert (Hc : u = 0 \/ u = 1 \/ u = 2 \/ u = 3 \/ u = 4 \/ u = 5 \/ u = 6
               \/ u = 7 \/ u = 8 \/ u = 9 \/ u = 10 \/ u = 11 \/ u = 12
               \/ u = 13 \/ u = 14 \/ u = 15) by lia.
  unfold is_hex_digit.
  repeat (destruct Hc as [->|Hc]; [vm_compute; intuition (try discriminate; try lia)|]).
  subst u. vm_compute. intuition (try discriminate; try lia).
Qed.

(** With enough rounds, the loop writes the canonical numeral in front of
    the digits it already holds. *)
Lemma format_digits_spec n : forall fuel u acc,
  (n <= fuel)%nat -> 0 <= u < 16 ^ Z.of_nat (S n) ->
  exists ds,
    strconv.format_digits (S fuel) 16 u acc = ds ++ acc
    /\ parse_from 0 ds = u
    /\ (1 <= List.length ds <= S n)%nat
    /\ Forall is_hex_digit ds
    /\ (u = 0 -> ds = ["0"%byte])
    /\ (u <> 0 -> hd "0"%byte ds <> "0"%byte).
Proof.
  induction n as [|n IH]; intros fuel u acc Hfuel Hu;
    cbn [strconv.format_digits]; destruct (u <? 16) eqn:E.
  1, 3: apply Z.ltb_lt in E;
    destruct (digit_hex u ltac:(lia)) as (Hv & Hh & Hnz & Hz);
    exists [strconv.digit u]; cbn [app List.length hd];
    repeat split; try lia;
    [ unfold parse_from; cbn [fold_left]; lia
    | constructor; [exact Hh|constructor]
    | intros ->; rewrite Hz; reflexivity
    | exact Hnz ].
  - apply Z.ltb_ge in E. change (16 ^ Z.of_nat 1) with 16 in Hu. lia.
  - apply Z.ltb_ge in E. destruct fuel as [|fuel]; [lia|].
    assert (Hq : 0 <= u / 16 < 16 ^ Z.of_nat (S n)).
    { split; [apply Z.div_pos; lia|].
      apply Z.div_lt_upper_bound; [lia|].
      rewrite (Nat2Z.inj_succ (S n)), Z.pow_succ_r in Hu by lia. lia. }
    destruct (IH fuel (u / 16) (strconv.digit (u mod 16) :: acc)
                ltac:(lia) Hq) as (ds & Heq & Hp & Hl & Hall & _ & Hhd).
    assert (Hm : 0 <= u mod 16 < 16) by (apply Z.mod_pos_bound; lia).
    destruct (digit_hex (u mod 16) Hm) as (Hv & Hh & _ & _).
    exists (ds ++ [strconv.digit (u mod 16)]). repeat split.
    + rewrite Heq, <- app_assoc. reflexivity.
    + rewrite parse_from_app, Hp. unfold parse_from. cbn [fold_left].
      rewrite Hv. pose proof (Z.div_mod u 16). lia.
    + rewrite length_app. cbn [List.length]. lia.
    + rewrite length_app. cbn [List.length]. lia.
    + apply Forall_app. split; [exact Hall|]. constructor; [exact Hh|constructor].
    + intros ->. lia.
    + intros _. assert (Hq0 : u / 16 <> 0).
      { intros H0. pose proof (Z.div_mod u 16). lia. }
      specialize (Hhd Hq0). destruct ds as [|d ds]; [cbn in Hl; lia|].
      exact Hhd.
Qed.

Lemma FormatUint_hex u : 0 <= u < 2 ^ 32 ->
  strconv.parse_hex (strconv.FormatUint u 16) = u
  /\ (1 <= List.length (strconv.FormatUint u 16) <= 8)%nat
  /\ Forall is_hex_digit (strconv.FormatUint u 16)
  /\ (u = 0 -> strconv.FormatUint u 16 = ["0"%byte])
  /\ (u <> 0 -> hd "0"%byte (strconv.FormatUint u 16) <> "0"%byte).
Proof.
  intros Hu. unfold strconv.FormatUint.
  destruct (format_digits_spec 7 63 u [] ltac:(lia)) as (ds & Heq & H).
  { change (16 ^ Z.of_nat 8) with (2 ^ 32). exact Hu. }
  rewrite Heq, app_nil_r. exact H.
Qed.

(** ** Ending with a text *)

Lemma bytes_eqb_eq a : forall b, strings.bytes_eqb a b = true <-> a = b.
Proof.
  induction a as [|x a IH]; intros [|y b]; cbn [strings.bytes_eqb];
    try (split; [discriminate|discriminate]); try (split; reflexivity).
  rewrite andb_true_iff, IH. split.
  - intros [Hx ->]. apply Byte.byte_dec_bl in Hx. subst. reflexivity.
  - intros H. injection H as -> ->. split; [apply Byte.byte_dec_lb|]; reflexivity.
Qed.

Lemma HasSuffix_spec s suffix :
  strings.HasSuffix s suffix = true <-> exists pre, s = pre ++ suffix.
Proof.
  unfold strings.HasSuffix. rewrite andb_true_iff, bytes_eqb_eq, Nat.leb_le.
  split.
  - intros [Hle Heq].
    exists (firstn (List.length s - List.length suffix) s).
    pose proof (firstn_skipn (List.length s - List.length suffix) s) as H.
    rewrite Heq in H. symmetry. exact H.
  - intros [pre ->]. rewrite length_app. split; [lia|].
    replace (List.length pre + List.length suffix - List.length suffix)%nat
      with (List.length pre + 0)%nat by lia.
    rewrite skipn_app, Nat.add_0_r, skipn_all.
    replace (List.length pre - List.length pre)%nat with 0%nat by lia.
    reflexivity.
Qed.

Lemma received_length w speed packet n port :
  List.length (received w speed packet n port) = buffer_size.
Proof.
  unfold received. rewrite length_app, length_firstn, repeat_length. lia.
Qed.

(** C3. The packet is the payload followed by the base-16 text of its
    CRC-32 (polynomial 0xEDB88320): the text reads back as the 32-bit
    checksum, has between one and eight lower-case digits and no leading
    zero (the value 0 is the single digit 0). A call whose payload this is
    runs the loop over the ports on this packet (beyond the longest
    payload that [make] allocates it panics before the loop); a port is
    sent the packet,
    and its reply is judged valid exactly when the port opened, the packet
    fits the buffer and the buffer cut to the packet's length ends with
    the checksum text. *)
Theorem C3_packet_and_validity (data : list byte) :
  let crc := crc32.Checksum data (crc32.MakeTable 0xEDB88320) in
  let checksum := checksum_of data in
  let packet := data ++ checksum in
  0 <= crc < 2 ^ 32
  /\ checksum = strconv.FormatUint crc 16
  /\ strconv.parse_hex checksum = crc
  /\ Forall is_hex_digit checksum
  /\ (1 <= List.length checksum <= 8)%nat
  /\ (crc = 0 -> checksum = ["0"%byte])
  /\ (crc <> 0 -> hd "0"%byte checksum <> "0"%byte)
  /\ (forall w ports length speed s,
        0 <= length -> payload_at w s length = data ->
        test_transmission w ports length speed s
        = if length <=? max_payload
          then let r := tx_ports w speed packet checksum ports [] (seeded s) in
               (fst r, run_deferred (snd r))
          else (Panicked (Runtime MakesliceLen), run_deferred (seeded s)))
  /\ forall w speed port delays s,
       let buf := received w speed packet (opens s) port in
       let out := tx_ports w speed packet checksum [port] delays s in
       (serial_open w (opens s) port (GoInt.uint speed) = None ->
        In (EvWrite port packet) (trace (snd out)))
       /\ ((exists ds, fst out = Returned (true, ds)) <->
           serial_open w (opens s) port (GoInt.uint speed) = None
           /\ (List.length packet <= buffer_size)%nat
           /\ exists pre, firstn (List.length packet) buf = pre ++ checksum).
Proof.
  intros crc checksum packet.
  pose proof (Checksum_u32 data) as Hcrc. fold crc in Hcrc. unfold u32 in Hcrc.
  destruct (FormatUint_hex crc Hcrc) as (Hp & Hl & Hd & Hz & Hnz).
  assert (Hck : checksum = strconv.FormatUint crc 16) by reflexivity.
  rewrite <- Hck in *.
  repeat (split; [assumption|]).
  split.
  { intros w ports length speed s Hlen Hdata.
    destruct (length <=? max_payload) eqn:E.
    - apply Z.leb_le in E. rewrite test_transmission_unfold by lia.
      unfold packet_at. rewrite Hdata. reflexivity.
    - apply Z.leb_gt in E. apply test_transmission_refused. right. exact E. }
  intros w speed port delays s buf out. subst out.
  rewrite tx_ports_step. unfold port_verdict, after_port. fold buf.
  assert (Hbuf : List.length buf = buffer_size) by apply received_length.
  rewrite Hbuf.
  destruct (serial_open w (opens s) port (GoInt.uint speed)) as [msg|].
  { split; [discriminate|]. split.
    - intros [ds H]. discriminate.
    - intros [H _]. discriminate. }
  set (s' := {| seeds := seeds s; opens := S (opens s);
                deferred := port :: deferred s;
                trace := ((trace s ++ [EvOpen port (GoInt.uint speed)])
                          ++ [EvWrite port packet])
                         ++ [EvRead port buffer_size] |}).
  assert (Hin : In (EvWrite port packet) (trace s')).
  { cbn [trace s']. rewrite !in_app_iff. left. right. left. reflexivity. }
  destruct (List.length packet <=? buffer_size)%nat eqn:Efit.
  - apply Nat.leb_le in Efit.
    destruct (strings.HasSuffix (firstn (List.length packet) buf) checksum)
      eqn:Esuf.
    + split; [intros _; exact Hin|]. split.
      * intros _. repeat split; [exact Efit|]. apply HasSuffix_spec, Esuf.
      * intros _. eexists. reflexivity.
    + split; [intros _; exact Hin|]. split.
      * intros [ds H]. discriminate.
      * intros (_ & _ & Hpre). apply HasSuffix_spec in Hpre. congruence.
  - apply Nat.leb_gt in Efit. split; [intros _; exact Hin|]. split.
    + intros [ds H]. discriminate.
    + intros (_ & Hfit & _). lia.
Qed.

Example crc_check_value :
  crc32.Checksum (list_byte_of_string "123456789") (crc32.MakeTable 0xEDB88320)
  = 0xCBF43926.
Proof. vm_compute. reflexivity. Qed.

Example checksum_text_check_value :
  checksum_of (list_byte_of_string "123456789") = list_byte_of_string "cbf43926".
Proof. vm_compute. reflexivity. Qed.

Example checksum_text_is_not_padded :
  checksum_of (list_byte_of_string "c") = list_byte_of_string "6b9df6f"
  /\ checksum_of [] = ["0"%byte].
Proof. vm_compute. split; reflexivity. Qed.

(** ** No loop of a call runs out of rounds *)

Lemma tx_ports_has_fuel w speed packet checksum ports :
  forall delays s,
    fst (tx_ports w speed packet checksum ports delays s) <> OutOfFuel.
Proof.
  induction ports as [|port rest IH]; intros delays s.
  - discriminate.
  - rewrite tx_ports_step. destruct port_verdict; [apply IH|discriminate..].
Qed.

Lemma test_transmission_has_fuel w ports length speed s :
  fst (test_transmission w ports length speed s) <> OutOfFuel.
Proof.
  destruct (length_in_range length) as [Hok|Hbad].
  - rewrite test_transmission_unfold by assumption. apply tx_ports_has_fuel.
  - rewrite test_transmission_refused by assumption. discriminate.
Qed.

Lemma int_succ length max_length :
  GoInt.min_int <= length -> length < max_length ->
  max_length <= GoInt.max_int ->
  GoInt.add length 1 = length + 1.
Proof.
  unfold GoInt.add, GoInt.wrap, GoInt.min_int, GoInt.max_int. intros.
  rewrite Z.mod_small by lia. lia.
Qed.

(** ** Which errors are fatal *)

Lemma tx_ports_error_text w speed packet checksum ports :
  forall delays s msg,
    fst (tx_ports w speed packet checksum ports delays s)
    = Panicked (ErrorText msg) ->
    exists n port, serial_open w n port (GoInt.uint speed) = Some msg.
Proof.
  induction ports as [|port rest IH]; intros delays s msg H.
  - discriminate.
  - rewrite tx_ports_step in H. unfold port_verdict in H.
    destruct (serial_open w (opens s) port (GoInt.uint speed)) as [m|] eqn:E.
    + injection H as ->. eauto.
    + destruct (_ <=? _)%nat; [|discriminate].
      destruct (strings.HasSuffix _ _); [|discriminate].
      eapply IH, H.
Qed.

(** A panic that carries an error message comes from [serial.Open]: the
    errors of [Write] and [Read] never reach [check]. *)
Lemma only_open_errors_are_fatal w ports length speed s msg :
  fst (test_transmission w ports length speed s) = Panicked (ErrorText msg) ->
  exists n port, serial_open w n port (GoInt.uint speed) = Some msg.
Proof.
  destruct (length_in_range length) as [Hok|Hbad].
  - rewrite test_transmission_unfold by assumption. cbn zeta. cbn [fst].
    apply tx_ports_error_text.
  - rewrite test_transmission_refused by assumption. discriminate.
Qed.

Lemma open_error_is_fatal w port rest length speed s msg :
  0 <= length <= max_payload ->
  serial_open w (opens s) port (GoInt.uint speed) = Some msg ->
  fst (test_transmission w (port :: rest) length speed s)
  = Panicked (ErrorText msg).
Proof.
  intros Hlen Hopen. rewrite test_transmission_unfold by assumption.
  cbn zeta. cbn [fst]. rewrite tx_ports_step. unfold port_verdict.
  change (opens (seeded s)) with (opens s). rewrite Hopen. reflexivity.
Qed.

Example unplugged_port_is_fatal :
  fst (test_transmission unplugged ["COM15"%string] 20 9600 initial)
  = Panicked (ErrorText "open: no such file or directory").
Proof. apply open_error_is_fatal; [lia|reflexivity]. Qed.

(** C2, at the failing input. On a port that opens and then fails both
    [Write] and [Read], the call does not panic: it returns [false] with
    no latency, as for a plain mismatch. *)
Theorem C2_io_errors_are_not_fatal :
  let io := serial_session broken_io 0 "COM15" 9600
              (packet_at broken_io initial 20) in
  write_err io = Some "write: input/output error"%string
  /\ read_err io = Some "EOF"%string
  /\ fst (test_transmission broken_io ["COM15"%string] 20 9600 initial)
     = Returned (false, []).
Proof. vm_compute. repeat split. Qed.

(** ** test_for_speed *)

(** C4, at the failing input. On a link where every transmission
    verifies, the sweep from 9600 below 9602 tests the speeds 9600 and
    9601 and the call then sweeps again: four transmissions, not two.
    When the link fades after the third transmission, the first sweep
    still completes with 9601, and the second sweep overwrites that
    result with 9600. *)
Theorem C4_second_pass_runs :
  (let r := test_for_speed 8 loopback ["COM15"%string] 20 9600 9602 initial in
   fst r = Returned 9601 /\ seeds (snd r) = 4%nat)
  /\ (let r := speed_sweep 8 (fading 3) ["COM15"%string] 20 9602 9600 9600 0
                 initial in
      fst r = Returned (9601, 9600) /\ seeds (snd r) = 2%nat)
  /\ (let r := test_for_speed 8 (fading 3) ["COM15"%string] 20 9600 9602
                 initial in
      fst r = Returned 9600 /\ seeds (snd r) = 4%nat).
Proof. vm_compute. repeat split. Qed.

Lemma equal_bounds_return_zero fuel w ports length v s :
  1 <= v <= GoInt.max_int ->
  test_for_speed fuel w ports length v v s = (Returned 0, s).
Proof.
  intros Hv. unfold test_for_speed. cbv zeta.
  assert (Hq : int_div v v s = (Returned 1, s)).
  { unfold int_div. destruct (v =? 0) eqn:E; [apply Z.eqb_eq in E; lia|].
    rewrite Z.quot_same by lia. reflexivity. }
  assert (Hs : forall l m,
             speed_sweep fuel w ports length v m v l s = (Returned (l, m), s)).
  { intros l m. destruct fuel; cbn [speed_sweep]; rewrite Z.ltb_irrefl;
      reflexivity. }
  generalize 0 as l. generalize 2%nat as passes.
  induction passes as [|passes IH]; intros l; cbn [speed_passes].
  - reflexivity.
  - rewrite (bind_returned _ _ _ _ _ Hq). change (1 <? 1) with false.
    cbv iota. rewrite (bind_returned _ _ _ _ _ (Hs l v)). apply IH.
Qed.

(** C5, as amended. With both bounds at 9600 the call returns 0 and leaves
    the state as it found it: no port is opened, nothing is sent, whatever
    the link would do. *)
Theorem C5_equal_bounds_test_nothing fuel w ports s :
  test_for_speed fuel w ports 16 9600 9600 s = (Returned 0, s).
Proof. apply equal_bounds_return_zero. int_range. Qed.

(** C5, as stated, fails on a loopback of two ports: a transmission of 16
    bytes at 9600 verifies, and the search still does not return 9600. *)
Lemma C5_counterexample :
  ~ (fst (test_for_speed 8 loopback ["COM1"%string; "COM2"%string] 16 9600 9600
            initial) = Returned 9600
     <-> exists ds,
           fst (test_transmission loopback ["COM1"%string; "COM2"%string] 16 9600
                  initial) = Returned (true, ds)).
Proof.
  intros [_ H].
  assert (Hv : exists ds,
             fst (test_transmission loopback ["COM1"%string; "COM2"%string] 16
                    9600 initial) = Returned (true, ds)).
  { eexists. vm_compute. reflexivity. }
  apply H in Hv. vm_compute in Hv. discriminate.
Qed.

(** C10. With [min_speed] 0 the guard of the first pass divides by zero:
    the call panics in the state it started in, before anything is sent.
    From 1 up the quotient of guard and step is defined, and is the
    truncated quotient of the two bounds. *)
Theorem C10_zero_min_speed_panics :
  (forall fuel w ports length max_speed s,
     test_for_speed fuel w ports length 0 max_speed s
     = (Panicked (Runtime DivideByZero), s))
  /\ (forall min_speed max_speed s,
        1 <= min_speed -> GoInt.is_int max_speed ->
        int_div max_speed min_speed s
        = (Returned (Z.quot max_speed min_speed), s)).
Proof.
  split.
  - intros. reflexivity.
  - intros min_speed max_speed s Hmin [Hlo Hhi]. unfold int_div.
    destruct (min_speed =? 0) eqn:E; [apply Z.eqb_eq in E; lia|].
    unfold ret. f_equal. f_equal. unfold GoInt.wrap, GoInt.min_int, GoInt.max_int in *.
    assert (Hq : - 2 ^ 63 <= Z.quot max_speed min_speed <= 2 ^ 63 - 1).
    { destruct (Z.le_ge_cases 0 max_speed) as [Hp|Hn].
      - pose proof (Z.quot_pos max_speed min_speed Hp ltac:(lia)).
        pose proof (Z.quot_le_upper_bound max_speed min_speed max_speed
                      ltac:(lia) ltac:(nia)). lia.
      - pose proof (Z.quot_opp_l max_speed min_speed ltac:(lia)) as Ho.
        pose proof (Z.quot_pos (- max_speed) min_speed ltac:(lia) ltac:(lia)).
        pose proof (Z.quot_le_upper_bound (- max_speed) min_speed (- max_speed)
                      ltac:(lia) ltac:(nia)). lia. }
    rewrite Z.mod_small by lia. lia.
Qed.

(** ** One payload per call *)

Lemma writes_app a b : writes (a ++ b) = writes a ++ writes b.
Proof. unfold writes. apply flat_map_app. Qed.

Lemma writes_closes ports : writes (map EvClose ports) = [].
Proof. induction ports as [|p ports IH]; [reflexivity|exact IH]. Qed.

Lemma tx_ports_writes w speed packet checksum ports :
  forall delays s,
  exists new k,
    trace (snd (tx_ports w speed packet checksum ports delays s))
    = trace s ++ new
    /\ writes new = map (fun port => (port, packet)) (firstn k ports)
    /\ (k <= List.length ports)%nat
    /\ forall i,
         (i < k)%nat <->
         Forall is_valid
           (firstn i (verdicts w speed packet checksum (opens s) ports))
         /\ exists port,
              nth_error ports i = Some port
              /\ serial_open w (opens s + i) port (GoInt.uint speed) = None.
Proof.
  induction ports as [|port rest IH]; intros delays s.
  - exists [], 0%nat. cbn [tx_ports ret snd]. rewrite app_nil_r.
    repeat split; try reflexivity; try lia.
    intros (_ & port & Hnth & _). destruct i; discriminate.
  - rewrite tx_ports_step. cbn [verdicts].
    destruct (serial_open w (opens s) port (GoInt.uint speed)) as [msg|]
      eqn:Eopen.
    + (* the port does not open: nothing is written *)
      assert (Ev : port_verdict w speed packet checksum (opens s) port
                   = Fatal (ErrorText msg))
        by (unfold port_verdict; rewrite Eopen; reflexivity).
      rewrite Ev. unfold after_port. rewrite Eopen.
      exists [EvOpen port (GoInt.uint speed)], 0%nat. cbn [snd trace].
      repeat split; try reflexivity; try lia.
      intros (Hall & p & Hnth & Hopen). destruct i as [|i].
      * cbn in Hnth. injection Hnth as <-.
        rewrite Nat.add_0_r in Hopen. congruence.
      * cbn [firstn] in Hall. inversion Hall as [|v vs Hv _]. contradiction.
    + set (s' := {| seeds := seeds s; opens := S (opens s);
                    deferred := port :: deferred s;
                    trace := ((trace s ++ [EvOpen port (GoInt.uint speed)])
                              ++ [EvWrite port packet])
                             ++ [EvRead port buffer_size] |}).
      assert (Hafter : after_port w speed packet port s = s')
        by (unfold after_port; rewrite Eopen; reflexivity).
      rewrite Hafter.
      assert (Hfirst : Forall is_valid
                         (firstn 0 (port_verdict w speed packet checksum
                                      (opens s) port
                                    :: verdicts w speed packet checksum
                                         (S (opens s)) rest))
                       /\ exists p,
                            nth_error (port :: rest) 0 = Some p
                            /\ serial_open w (opens s + 0) p (GoInt.uint speed)
                               = None).
      { split; [constructor|]. exists port. split; [reflexivity|].
        rewrite Nat.add_0_r. exact Eopen. }
      assert (Hstop : ~ is_valid (port_verdict w speed packet checksum
                                    (opens s) port) ->
                 exists new k,
                   trace s' = trace s ++ new
                   /\ writes new
                      = map (fun port => (port, packet))
                          (firstn k (port :: rest))
                   /\ (k <= List.length (port :: rest))%nat
                   /\ forall i,
                        (i < k)%nat <->
                        Forall is_valid
                          (firstn i (port_verdict w speed packet checksum
                                       (opens s) port
                                     :: verdicts w speed packet checksum
                                          (S (opens s)) rest))
                        /\ exists p,
                             nth_error (port :: rest) i = Some p
                             /\ serial_open w (opens s + i) p
                                  (GoInt.uint speed) = None).
      { intros Hbad.
        exists [EvOpen port (GoInt.uint speed); EvWrite port packet;
                EvRead port buffer_size], 1%nat.
        cbn [trace s' List.length]. rewrite <- !app_assoc.
        repeat split; try reflexivity; try lia.
        - destruct i as [|i]; [apply Hfirst|lia].
        - destruct i as [|i]; [apply Hfirst|lia].
        - intros (Hall & _). destruct i as [|i]; [lia|].
          cbn [firstn] in Hall. inversion Hall as [|v vs Hv _].
          contradiction. }
      destruct (port_verdict w speed packet checksum (opens s) port)
        as [d| |p] eqn:Ev; try (apply Hstop; intros []).
      destruct (IH (delays ++ [d]) s') as (new & k & Htrace & Hwrites & Hk & Hiff).
      change (opens s') with (S (opens s)) in Hiff.
      exists ([EvOpen port (GoInt.uint speed); EvWrite port packet;
               EvRead port buffer_size] ++ new), (S k).
      split; [|split; [|split]].
      * rewrite Htrace. cbn [trace s']. rewrite <- !app_assoc. reflexivity.
      * rewrite writes_app, Hwrites. reflexivity.
      * cbn [List.length]. lia.
      * intros i. destruct i as [|i].
        { split; [intros _; exact Hfirst|lia]. }
        cbn [firstn nth_error].
        replace (opens s + S i)%nat with (S (opens s) + i)%nat by lia.
        rewrite <- Nat.succ_lt_mono, Hiff. split.
        { intros [Hall Hport]. split; [constructor; [exact I|exact Hall]|].
          exact Hport. }
        { intros [Hall Hport]. split; [|exact Hport].
          inversion Hall; assumption. }
Qed.

(** C6, as amended. A call generates one payload, after one reseeding,
    and writes the one packet built from it to every port its loop
    reaches and opens: the packets written are that packet, once for each
    of the first [k] ports of the set, in order, where a port is among
    these exactly when every port before it passed verification and it
    opened. *)
Theorem C6_one_payload_per_call w ports length speed s :
  0 <= length <= max_payload ->
  let result := test_transmission w ports length speed s in
  seeds (snd result) = S (seeds s)
  /\ exists new k,
       trace (snd result) = trace s ++ new
       /\ writes new
          = map (fun port => (port, packet_at w s length)) (firstn k ports)
       /\ (k <= List.length ports)%nat
       /\ forall i,
            (i < k)%nat <-> reached_and_opened w ports length speed s i.
Proof.
  intros Hlen result. subst result.
  rewrite test_transmission_unfold by assumption. cbn zeta. cbn [snd].
  split.
  - cbn [run_deferred seeds].
    assert (Hseeds : forall ports delays s0,
               seeds (snd (tx_ports w speed (packet_at w s length)
                             (checksum_of (payload_at w s length)) ports
                             delays s0)) = seeds s0).
    { clear. induction ports as [|port rest IH]; intros delays s0.
      - reflexivity.
      - rewrite tx_ports_step.
        assert (Ha : seeds (after_port w speed (packet_at w s length) port s0)
                     = seeds s0)
          by (unfold after_port; destruct serial_open; reflexivity).
        destruct port_verdict; [rewrite IH|..]; exact Ha. }
    rewrite Hseeds. reflexivity.
  - destruct (tx_ports_writes w speed (packet_at w s length)
                (checksum_of (payload_at w s length)) ports [] (seeded s))
      as (new & k & Htrace & Hwrites & Hk & Hiff).
    exists ([EvSeed] ++ new ++ map EvClose
              (deferred (snd (tx_ports w speed (packet_at w s length)
                                (checksum_of (payload_at w s length)) ports []
                                (seeded s))))), k.
    split; [|split; [|split]].
    + cbn [run_deferred trace]. rewrite Htrace. cbn [seeded trace].
      rewrite <- !app_assoc. reflexivity.
    + rewrite !writes_app, writes_closes, app_nil_r, Hwrites. reflexivity.
    + exact Hk.
    + exact Hiff.
Qed.

(** C6, as stated, fails on a loopback of two ports with three letters:
    both ports are sent the packet of the letters abc, where a payload per
    port would send the second port the packet of def. *)
Lemma C6_counterexample :
  writes (trace (snd (test_transmission loopback
                        ["COM1"%string; "COM2"%string] 3 9600 initial)))
  <> fresh_packets (rand_raw loopback 0) 3 ["COM1"%string; "COM2"%string].
Proof. vm_compute. discriminate. Qed.

(** The theorem on a loopback of two ports. *)
Lemma C6_witness :
  0 <= 3 <= max_payload
  /\ (let result := test_transmission loopback ["COM1"%string; "COM2"%string]
                      3 9600 initial in
      seeds (snd result) = 1%nat
      /\ exists new k,
           trace (snd result) = trace initial ++ new
           /\ writes new
              = map (fun port => (port, packet_at loopback initial 3))
                  (firstn k ["COM1"%string; "COM2"%string])
           /\ (k <= 2)%nat
           /\ forall i,
                (i < k)%nat <->
                reached_and_opened loopback ["COM1"%string; "COM2"%string]
                  3 9600 initial i).
Proof.
  split; [lia|].
  apply (C6_one_payload_per_call loopback ["COM1"%string; "COM2"%string]
           3 9600 initial).
  lia.
Defined.

(** ** test_for_delay *)

Lemma delay_runs_first_failure w ports length speed samples s d s1 :
  test_transmission w ports length speed s = (Returned (false, d), s1) ->
  exists s',
    delay_runs (Z.to_nat samples) w ports length speed samples 0 [] s
    = (Returned [], s')
    /\ (s' = s \/ s' = s1).
Proof.
  intros Htx. destruct (Z.to_nat samples) as [|fuel] eqn:Efuel;
    cbn [delay_runs]; destruct (0 <? samples) eqn:E.
  - apply Z.ltb_lt in E. lia.
  - exists s. split; [reflexivity|left; reflexivity].
  - rewrite (bind_returned _ _ _ _ _ Htx). cbn [negb].
    exists s1. split; [reflexivity|right; reflexivity].
  - exists s. split; [reflexivity|left; reflexivity].
Qed.

Lemma delay_runs_has_fuel w ports length speed samples :
  samples <= GoInt.max_int ->
  forall fuel i delays s,
    0 <= i ->
    (Z.to_nat (samples - i) <= fuel)%nat ->
    fst (delay_runs fuel w ports length speed samples i delays s) <> OutOfFuel.
Proof.
  intros Hmax. induction fuel as [|fuel IH]; intros i delays s Hi Hfuel;
    cbn [delay_runs]; destruct (i <? samples) eqn:E;
    try discriminate; try (apply Z.ltb_lt in E; lia).
  apply Z.ltb_lt in E. unfold bind.
  pose proof (test_transmission_has_fuel w ports length speed s) as Htx.
  destruct (test_transmission w ports length speed s) as [[[[] d]|p|] s1];
    try discriminate; [|contradiction].
  cbn [negb].
  rewrite (int_succ i samples) by (unfold GoInt.min_int; lia).
  apply IH; lia.
Qed.

(** The profiler returns or panics: its loop always has rounds left. *)
Lemma test_for_delay_has_fuel w ports length speed samples s :
  samples <= GoInt.max_int ->
  fst (test_for_delay w ports length speed samples s) <> OutOfFuel.
Proof.
  intros Hmax. unfold test_for_delay. unfold bind at 1.
  pose proof (delay_runs_has_fuel w ports length speed samples Hmax
                (Z.to_nat samples) 0 [] s (Z.le_refl 0)) as H.
  rewrite Z.sub_0_r in H. specialize (H (Nat.le_refl _)).
  destruct (delay_runs (Z.to_nat samples) w ports length speed samples 0 [] s)
    as [[delays|p|] s1]; [discriminate|discriminate|contradiction].
Qed.

(** C9. With no samples asked for, the call sends nothing, prints the
    three lines and returns the not-a-number of the empty mean; the same
    happens after a first transmission that fails verification. In both
    cases the call returns: it does not panic. *)
Theorem C9_empty_mean_is_nan w ports length speed :
  (forall s,
     test_for_delay w ports length speed 0 s = (Returned nan, no_data_report s))
  /\ (forall samples s d s1,
        test_transmission w ports length speed s = (Returned (false, d), s1) ->
        exists s',
          test_for_delay w ports length speed samples s
          = (Returned nan, no_data_report s')).
Proof.
  split.
  - intros s. reflexivity.
  - intros samples s d s1 Htx.
    destruct (delay_runs_first_failure w ports length speed samples s d s1 Htx)
      as (s' & Hruns & _).
    exists s'. unfold test_for_delay.
    rewrite (bind_returned _ _ _ _ _ Hruns). reflexivity.
Qed.

(** Ten samples asked of a silent link. *)
Lemma C9_witness :
  test_transmission (fading 0) ["COM15"%string] 10 9600 initial
  = (Returned (false, []),
     snd (test_transmission (fading 0) ["COM15"%string] 10 9600 initial))
  /\ exists s',
       test_for_delay (fading 0) ["COM15"%string] 10 9600 10 initial
       = (Returned nan, no_data_report s').
Proof.
  assert (H : test_transmission (fading 0) ["COM15"%string] 10 9600 initial
              = (Returned (false, []),
                 snd (test_transmission (fading 0) ["COM15"%string] 10 9600
                        initial)))
    by (vm_compute; reflexivity).
  split; [exact H|].
  exact (proj2 (C9_empty_mean_is_nan (fading 0) ["COM15"%string] 10 9600)
           10 initial [] _ H).
Defined.

(** C8, at the failing input. Two samples on a loopback whose clock reads 0
    for the first exchange and one millisecond for the second: the call
    reports a minimum of 1000000, the mean it returns is 500000, below
    the minimum it reports. *)
Theorem C8_mean_below_reported_minimum :
  let r := test_for_delay coarse_clock ["COM15"%string] 10 9600 2 initial in
  fst r = Returned 500000%float
  /\ printed (trace (snd r))
     = [[PStr "Maximum delay:"; PFloat 1000000; PStr "ms"];
        [PStr "Average delay:"; PFloat 500000; PStr "ms"];
        [PStr "Minimum delay:"; PFloat 1000000; PStr "ms"]]
  /\ PrimFloat.ltb 500000 1000000 = true
  /\ stats_of [0%float; 1000000%float]
     = {| total := 1000000; min_delay := 1000000; max_delay := 1000000 |}.
Proof. vm_compute. repeat split. Qed.

(** ** test_for_length *)

Lemma length_sweep_spec w ports speed max_length :
  max_length <= GoInt.max_int ->
  forall fuel length last s,
    GoInt.min_int <= length ->
    (Z.to_nat (max_length - length) <= fuel)%nat ->
    match length_sweep fuel w ports speed max_length length last s with
    | (Returned (Completed v), s') =>
        succeeds w ports speed s length (Z.max length max_length) s'
        /\ v = (if length <? max_length then max_length - 1 else last)
    | (Returned (ReturnNow v), s') =>
        exists f s1,
          length <= f < max_length
          /\ succeeds w ports speed s length f s1
          /\ fails_at w ports speed s1 f s'
          /\ v = (if f =? length then last else f - 1)
    | (Panicked p, s') =>
        exists f s1,
          length <= f < max_length
          /\ test_transmission w ports f speed s1 = (Panicked p, s')
    | (OutOfFuel, _) => False
    end.
Proof.
  intros Hmax. induction fuel as [|fuel IH]; intros length last s Hmin Hfuel;
    cbn [length_sweep]; destruct (length <? max_length) eqn:Elt;
    try (apply Z.ltb_lt in Elt; lia);
    try (apply Z.ltb_ge in Elt; unfold ret;
         rewrite Z.max_l by lia; split; [constructor|reflexivity]).
  apply Z.ltb_lt in Elt. unfold bind at 1.
  destruct (test_transmission w ports length speed s) as [[[[] d]|p|] s1] eqn:Etx.
  - rewrite (int_succ length max_length) by assumption.
    specialize (IH (length + 1) length s1 ltac:(lia) ltac:(lia)).
    destruct (length_sweep fuel w ports speed max_length (length + 1) length s1)
      as [[[v|v]|p|] s'].
    + destruct IH as [Hrun ->]. split.
      * rewrite Z.max_r by lia.
        replace (Z.max (length + 1) max_length) with max_length in Hrun by lia.
        econstructor; eassumption.
      * destruct (length + 1 <? max_length) eqn:E; [reflexivity|].
        apply Z.ltb_ge in E. lia.
    + destruct IH as (f & s2 & Hf & Hrun & Hfail & ->).
      exists f, s2. repeat split; try lia.
      * econstructor; eassumption.
      * exact Hfail.
      * destruct (f =? length + 1) eqn:E1, (f =? length) eqn:E2;
          try reflexivity; try (apply Z.eqb_eq in E2; lia).
        apply Z.eqb_eq in E1. lia.
    + destruct IH as (f & s2 & Hf & Hp). exists f, s2. split; [lia|exact Hp].
    + exact IH.
  - unfold ret. exists length, s. repeat split; try lia.
    + constructor.
    + exists d. exact Etx.
    + rewrite Z.eqb_refl. reflexivity.
  - exists length, s. split; [lia|exact Etx].
  - pose proof (test_transmission_has_fuel w ports length speed s) as H.
    rewrite Etx in H. apply H. reflexivity.
Qed.

(** C7, as amended. The search sweeps the lengths from [min_length] up in
    steps of 1 and returns at the first failing length [f] with the last
    recorded length: [f - 1], or, when [f] is [min_length], 0 in the first
    sweep and [max_length - 1], recorded by the completed first sweep, in
    the second. With no failure it returns [max_length - 1] after two
    sweeps, or 0 when the range is empty. It never runs out of rounds. *)
Theorem C7_length_search w ports speed min_length max_length s :
  GoInt.is_int min_length -> GoInt.is_int max_length ->
  let result := test_for_length w ports speed min_length max_length s in
  first_sweep_fails w ports speed min_length max_length s result
  \/ second_sweep_fails w ports speed min_length max_length s result
  \/ both_sweeps_complete w ports speed min_length max_length s result
  \/ sweep_panics w ports speed min_length max_length result.
Proof.
  intros [Hmin _] [_ Hmax] result.
  set (fuel := Z.to_nat (max_length - min_length)).
  assert (Hunfold : result
                    = length_passes 2 w ports speed min_length max_length 0 s)
    by reflexivity.
  clearbody result. cbn [length_passes] in Hunfold. fold fuel in Hunfold.
  pose proof (length_sweep_spec w ports speed max_length Hmax fuel min_length 0
                s Hmin (Nat.le_refl _)) as H1.
  destruct (length_sweep fuel w ports speed max_length min_length 0 s)
    as [[[v|v]|p|] s1] eqn:E1.
  - destruct H1 as [Hrun1 ->].
    rewrite (bind_returned _ _ _ _ _ E1) in Hunfold.
    pose proof (length_sweep_spec w ports speed max_length Hmax fuel min_length
                  (if min_length <? max_length then max_length - 1 else 0)
                  s1 Hmin (Nat.le_refl _)) as H2.
    destruct (length_sweep fuel w ports speed max_length min_length
                (if min_length <? max_length then max_length - 1 else 0) s1)
      as [[[v|v]|p|] s2] eqn:E2.
    + destruct H2 as [Hrun2 ->].
      rewrite (bind_returned _ _ _ _ _ E2) in Hunfold. subst result.
      right. right. left. exists s1. cbn [fst snd ret].
      split; [exact Hrun1|]. split; [exact Hrun2|].
      destruct (min_length <? max_length); reflexivity.
    + destruct H2 as (f & s3 & Hf & Hrun2 & Hfail & ->).
      rewrite (bind_returned _ _ _ _ _ E2) in Hunfold. subst result.
      right. left. exists f, s1, s3. cbn [fst snd ret].
      replace (Z.max min_length max_length) with max_length in Hrun1 by lia.
      split; [lia|]. split; [exact Hrun1|]. split; [exact Hrun2|].
      split; [exact Hfail|].
      destruct (min_length <? max_length) eqn:E; [reflexivity|].
      apply Z.ltb_ge in E. lia.
    + destruct H2 as (f & s3 & Hf & Hp).
      rewrite (bind_panicked _ _ _ _ _ E2) in Hunfold. subst result.
      right. right. right. exists p, f, s3. cbn [fst snd].
      split; [lia|]. split; [exact Hp|reflexivity].
    + contradiction.
  - destruct H1 as (f & s2 & Hf & Hrun & Hfail & ->).
    rewrite (bind_returned _ _ _ _ _ E1) in Hunfold. subst result.
    left. exists f, s2. cbn [fst snd ret].
    split; [lia|]. split; [exact Hrun|]. split; [exact Hfail|reflexivity].
  - destruct H1 as (f & s2 & Hf & Hp).
    rewrite (bind_panicked _ _ _ _ _ E1) in Hunfold. subst result.
    right. right. right. exists p, f, s2. cbn [fst snd].
    split; [lia|]. split; [exact Hp|reflexivity].
  - contradiction.
Qed.

(** C7, as stated, fails on a link that fades after the first
    transmission, with the range from 5 below 6: the first sweep records
    the length 5, the second sweep fails at 5 and the search returns 5,
    the length that just failed. *)
Lemma C7_counterexample :
  ~ never_returns_failed_length (fading 1) ["COM15"%string] 9600 5 6 initial.
Proof.
  intros H.
  set (s1 := snd (test_transmission (fading 1) ["COM15"%string] 5 9600 initial)).
  set (s2 := snd (test_transmission (fading 1) ["COM15"%string] 5 9600 s1)).
  apply (H 5 ltac:(vm_compute; reflexivity) s1 s1 s2).
  - right. eapply succeeds_next; [|apply succeeds_none].
    vm_compute. reflexivity.
  - apply succeeds_none.
  - exists []. vm_compute. reflexivity.
Qed.

(** The theorem on a link that fades after four transmissions. *)
Lemma C7_witness :
  GoInt.is_int 5 /\ GoInt.is_int 8
  /\ (let result := test_for_length (fading 4) ["COM15"%string] 9600 5 8
                      initial in
      first_sweep_fails (fading 4) ["COM15"%string] 9600 5 8 initial result
      \/ second_sweep_fails (fading 4) ["COM15"%string] 9600 5 8 initial result
      \/ both_sweeps_complete (fading 4) ["COM15"%string] 9600 5 8 initial result
      \/ sweep_panics (fading 4) ["COM15"%string] 9600 5 8 result).
Proof.
  assert (H5 : GoInt.is_int 5) by int_range.
  assert (H8 : GoInt.is_int 8) by int_range.
  split; [exact H5|]. split; [exact H8|].
  exact (C7_length_search (fading 4) ["COM15"%string] 9600 5 8 initial H5 H8).
Defined.

Example length_search_on_fading_link :
  fst (test_for_length (fading 4) ["COM15"%string] 9600 5 8 initial)
  = Returned 5.
Proof. vm_compute. reflexivity. Qed.

(** ** Witnesses on concrete links *)

(** Three ports, the second of which is silent: one latency, and the third
    port is never reached. *)
Lemma C1_witness :
  0 <= 16 <= max_payload
  /\ exists ds,
       fst (test_transmission (fading 1)
              ["COM1"%string; "COM2"%string; "COM3"%string] 16 9600 initial)
       = Returned (false, ds)
       /\ List.length ds = 1%nat
       /\ test_transmission (fading 1) ["COM1"%string; "COM2"%string] 16 9600
            initial
          = test_transmission (fading 1)
              ["COM1"%string; "COM2"%string; "COM3"%string] 16 9600 initial.
Proof.
  split; [lia|].
  destruct (C1_first_failure_aborts (fading 1)
              ["COM1"%string; "COM2"%string; "COM3"%string] 16 9600 initial
              ltac:(lia)) as (_ & _ & H).
  destruct (H 1%nat) as (ds & Hfst & _ & Hlen & Hcut).
  - vm_compute. constructor; [exact I|constructor].
  - vm_compute. reflexivity.
  - exists ds. split; [exact Hfst|]. split; [exact Hlen|exact Hcut].
Defined.

(** C1, as stated for every length from 0 up, fails on the empty device
    set with a payload of 2^62 letters: no port fails verification, and
    the call does not return [true], it panics in [make] before the
    loop. *)
Lemma C1_counterexample :
  ~ (let vs := call_verdicts loopback [] (2 ^ 62) 9600 initial in
     let result := test_transmission loopback [] (2 ^ 62) 9600 initial in
     (exists ds, fst result = Returned (true, ds)) <-> Forall is_valid vs).
Proof.
  cbv zeta. intros [_ H].
  destruct H as [ds Hds].
  - unfold call_verdicts. cbn [verdicts]. constructor.
  - rewrite test_transmission_refused in Hds by lia. discriminate.
Qed.

(** The guard of the bounds that [main] passes. *)
Lemma C10_witness :
  1 <= 9600 /\ GoInt.is_int 1000000
  /\ int_div 1000000 9600 initial = (Returned 104, initial).
Proof.
  assert (Hi : GoInt.is_int 1000000) by int_range.
  split; [lia|]. split; [exact Hi|].
  exact (proj2 C10_zero_min_speed_panics 9600 1000000 initial ltac:(lia) Hi).
Defined.

(** The packet of the payload abc on a loopback. *)
Lemma C3_witness :
  let data := list_byte_of_string "abc" in
  let packet := data ++ checksum_of data in
  serial_open loopback 0 "COM15"%string (GoInt.uint 9600) = None
  /\ checksum_of data = list_byte_of_string "352441c2"
  /\ In (EvWrite "COM15"%string packet)
        (trace (snd (tx_ports loopback 9600 packet (checksum_of data)
                       ["COM15"%string] [] initial)))
  /\ exists ds,
       fst (tx_ports loopback 9600 packet (checksum_of data)
              ["COM15"%string] [] initial) = Returned (true, ds).
Proof.
  intros data packet.
  destruct (C3_packet_and_validity data)
    as (_ & _ & _ & _ & _ & _ & _ & _ & H).
  destruct (H loopback 9600 "COM15"%string [] initial) as [Hwrite Hvalid].
  split; [reflexivity|]. split; [vm_compute; reflexivity|].
  split; [apply Hwrite; reflexivity|].
  apply Hvalid. split; [reflexivity|]. split.
  - apply Nat.leb_le. vm_compute. reflexivity.
  - exists data. vm_compute. reflexivity.
Defined.

(** * Further properties of the program *)

(** ** randSeq *)

Lemma letters_count : List.length letters = 52%nat.
Proof. reflexivity. Qed.

(** X1. The payload generator returns exactly [n] bytes, each one of the
    52 letters, whatever the generator draws: the index into the letters
    is always in range. *)
Theorem randSeq_length_and_alphabet draw n :
  List.length (randSeq draw n) = n
  /\ Forall (fun b => In b letters) (randSeq draw n).
Proof.
  unfold randSeq, randSeq_from. split.
  - rewrite length_map, length_seq. reflexivity.
  - apply Forall_forall. intros b Hb. apply in_map_iff in Hb.
    destruct Hb as (i & <- & _). apply nth_In. unfold rand.Intn.
    apply Nat.mod_upper_bound. rewrite letters_count. discriminate.
Qed.

Lemma payload_length w s length :
  List.length (payload_at w s length) = Z.to_nat length.
Proof. apply randSeq_length_and_alphabet. Qed.

Lemma checksum_length data :
  (1 <= List.length (checksum_of data) <= 8)%nat.
Proof.
  unfold checksum_of. cbv zeta.
  apply (FormatUint_hex _ (Checksum_u32 data)).
Qed.


Lemma packet_length w s length :
  List.length (packet_at w s length)
  = (Z.to_nat length + List.length (checksum_of (payload_at w s length)))%nat.
Proof. unfold packet_at. rewrite length_app, payload_length. reflexivity. Qed.

(** ** The edges of test_transmission *)

Lemma length_sweep_first_panic fuel w ports speed max_length length last s p s1 :
  length < max_length -> (1 <= fuel)%nat ->
  test_transmission w ports length speed s = (Panicked p, s1) ->
  length_sweep fuel w ports speed max_length length last s = (Panicked p, s1).
Proof.
  intros Hlt Hfuel Htx. destruct fuel as [|fuel]; [lia|].
  cbn [length_sweep]. apply Z.ltb_lt in Hlt. rewrite Hlt.
  apply bind_panicked. exact Htx.
Qed.

(** X2. A negative length panics in [make] right after the reseeding:
    no port is opened. A length search whose range starts below zero
    therefore panics on its first transmission. *)
Theorem negative_length_panics w ports speed :
  (forall length s,
     length < 0 ->
     let r := test_transmission w ports length speed s in
     fst r = Panicked (Runtime MakesliceLen)
     /\ opens (snd r) = opens s
     /\ writes (trace (snd r)) = writes (trace s))
  /\ (forall min_length max_length s,
        min_length < 0 -> min_length < max_length ->
        fst (test_for_length w ports speed min_length max_length s)
        = Panicked (Runtime MakesliceLen)).
Proof.
  split.
  - intros length s Hneg r. subst r.
    rewrite test_transmission_negative by assumption.
    cbn [fst snd run_deferred seeded opens trace].
    repeat split. rewrite !writes_app, writes_closes, !app_nil_r.
    reflexivity.
  - intros min_length max_length s Hneg Hlt.
    unfold test_for_length. cbv zeta. cbn [length_passes].
    erewrite bind_panicked; [reflexivity|].
    apply length_sweep_first_panic; [assumption|lia|].
    apply test_transmission_negative. assumption.
Qed.

Lemma negative_length_panics_witness :
  -1 < 0 /\ -1 < 5
  /\ fst (test_for_length loopback ["COM15"%string] 9600 (-1) 5 initial)
     = Panicked (Runtime MakesliceLen).
Proof.
  split; [lia|]. split; [lia|].
  apply (proj2 (negative_length_panics loopback ["COM15"%string] 9600)); lia.
Defined.

(** ** Deferred closes *)

Lemma closes_app a b : closes (a ++ b) = closes a ++ closes b.
Proof. unfold closes. apply flat_map_app. Qed.

Lemma closes_closes ports : closes (map EvClose ports) = ports.
Proof.
  induction ports as [|p ports IH]; [reflexivity|].
  cbn [map]. change (closes (EvClose p :: map EvClose ports))
    with (p :: closes (map EvClose ports)). rewrite IH. reflexivity.
Qed.

Lemma tx_ports_deferred w speed packet checksum ports :
  forall delays s,
  exists body,
    trace (snd (tx_ports w speed packet checksum ports delays s))
    = trace s ++ body
    /\ closes body = []
    /\ deferred (snd (tx_ports w speed packet checksum ports delays s))
       = rev (map fst (writes body)) ++ deferred s.
Proof.
  induction ports as [|port rest IH]; intros delays s.
  - exists []. cbn. rewrite app_nil_r. repeat split.
  - rewrite tx_ports_step. unfold port_verdict, after_port.
    destruct (serial_open w (opens s) port (GoInt.uint speed)) as [msg|].
    { exists [EvOpen port (GoInt.uint speed)]. repeat split. }
    set (s' := {| seeds := seeds s; opens := S (opens s);
                  deferred := port :: deferred s;
                  trace := ((trace s ++ [EvOpen port (GoInt.uint speed)])
                            ++ [EvWrite port packet])
                           ++ [EvRead port buffer_size] |}).
    assert (Hstop : exists body,
               trace s' = trace s ++ body /\ closes body = []
               /\ deferred s' = rev (map fst (writes body)) ++ deferred s).
    { exists [EvOpen port (GoInt.uint speed); EvWrite port packet;
              EvRead port buffer_size].
      cbn [trace s']. rewrite <- !app_assoc. repeat split. }
    destruct (_ <=? _)%nat; [|exact Hstop].
    destruct (strings.HasSuffix _ _); [|exact Hstop].
    destruct (IH (delays ++ [GoInt.float64
                     (elapsed (serial_session w (opens s) port
                                 (GoInt.uint speed) packet))]) s')
      as (body & Htrace & Hcloses & Hdef).
    exists ([EvOpen port (GoInt.uint speed); EvWrite port packet;
             EvRead port buffer_size] ++ body). repeat split.
    + rewrite Htrace. cbn [trace s']. rewrite <- !app_assoc. reflexivity.
    + rewrite closes_app, Hcloses. reflexivity.
    + rewrite Hdef, writes_app. cbn [deferred s'].
      change (writes [EvOpen port (GoInt.uint speed); EvWrite port packet;
                      EvRead port buffer_size]) with [(port, packet)].
      cbn [app map fst rev]. rewrite <- app_assoc. reflexivity.
Qed.

(** X3. Whatever way a call ends (true, false or a panic), it closes
    exactly the ports it wrote to, that is the ports that opened, each
    once, the last opened first, after everything else it did; no close
    is left pending. *)
Theorem every_opened_port_is_closed w ports length speed s :
  deferred s = [] ->
  let r := test_transmission w ports length speed s in
  exists body,
    trace (snd r)
    = trace s ++ body ++ map EvClose (rev (map fst (writes body)))
    /\ closes body = []
    /\ deferred (snd r) = [].
Proof.
  intros Hdef r. subst r.
  assert (Hcase : (length < 0 \/ max_payload < length)
                  \/ 0 <= length <= max_payload) by lia.
  destruct Hcase as [Hneg|Hpos].
  - rewrite test_transmission_refused by assumption.
    exists [EvSeed]. cbn [snd run_deferred seeded trace deferred].
    rewrite Hdef. repeat split. rewrite <- app_assoc. reflexivity.
  - rewrite test_transmission_unfold by lia. cbn zeta. cbn [snd].
    destruct (tx_ports_deferred w speed (packet_at w s length)
                (checksum_of (payload_at w s length)) ports [] (seeded s))
      as (body & Htrace & Hcloses & Hd).
    exists (EvSeed :: body). cbn [run_deferred trace deferred].
    rewrite Htrace, Hd. cbn [seeded trace deferred]. rewrite Hdef, app_nil_r.
    repeat split.
    + change (writes (EvSeed :: body)) with (writes body).
      rewrite <- !app_assoc. reflexivity.
    + exact Hcloses.
Qed.

Lemma every_opened_port_is_closed_witness :
  deferred initial = []
  /\ closes (trace (snd (test_transmission (fading 1)
                           ["COM1"%string; "COM2"%string; "COM3"%string]
                           16 9600 initial)))
     = ["COM2"%string; "COM1"%string].
Proof.
  split; [reflexivity|].
  destruct (every_opened_port_is_closed (fading 1)
              ["COM1"%string; "COM2"%string; "COM3"%string] 16 9600 initial
              eq_refl) as (body & Htrace & Hcloses & _).
  rewrite Htrace. cbn [trace initial app].
  rewrite closes_app, Hcloses, closes_closes. cbn [app].
  apply (f_equal writes) in Htrace.
  cbn [trace initial app] in Htrace.
  rewrite writes_app, writes_closes, app_nil_r in Htrace. rewrite <- Htrace.
  vm_compute. reflexivity.
Defined.

(** ** How a reply is judged *)

Lemma port_verdict_opened w speed packet checksum n port :
  serial_open w n port (GoInt.uint speed) = None ->
  (List.length packet <= buffer_size)%nat ->
  port_verdict w speed packet checksum n port
  = if strings.HasSuffix
         (firstn (List.length packet) (received w speed packet n port)) checksum
    then Valid (GoInt.float64
                  (elapsed (serial_session w n port (GoInt.uint speed) packet)))
    else Invalid.
Proof.
  intros Hopen Hfit. unfold port_verdict. rewrite Hopen, received_length.
  apply Nat.leb_le in Hfit. rewrite Hfit. reflexivity.
Qed.

Lemma port_verdict_oversize w speed packet checksum n port :
  serial_open w n port (GoInt.uint speed) = None ->
  (buffer_size < List.length packet)%nat ->
  port_verdict w speed packet checksum n port
  = Fatal (Runtime (SliceBounds (List.length packet) buffer_size)).
Proof.
  intros Hopen Hbig. unfold port_verdict. rewrite Hopen, received_length.
  apply Nat.leb_gt in Hbig. rewrite Hbig. reflexivity.
Qed.

Lemma received_prefix w speed packet n port pre tail :
  rx (serial_session w n port (GoInt.uint speed) packet) = pre ++ tail ->
  (List.length pre <= buffer_size)%nat ->
  firstn (List.length pre) (received w speed packet n port) = pre.
Proof.
  intros Hrx Hfit. unfold received. rewrite Hrx.
  rewrite firstn_app, firstn_firstn, Nat.min_l by assumption.
  replace (List.length pre) with (List.length pre + 0)%nat at 1 by lia.
  rewrite firstn_app_2. cbn [firstn]. rewrite app_nil_r.
  rewrite length_firstn, length_app.
  replace (List.length pre
           - Nat.min buffer_size (List.length pre + List.length tail))%nat
    with 0%nat by lia.
  cbn [firstn]. apply app_nil_r.
Qed.

Lemma fits_buffer w s length :
  0 <= length <= 9992 ->
  (List.length (packet_at w s length) <= buffer_size)%nat.
Proof.
  intros Hlen. rewrite packet_length.
  pose proof (checksum_length (payload_at w s length)) as Hc.
  unfold buffer_size. lia.
Qed.

Lemma echo_verdicts w speed packet checksum data ports :
  packet = data ++ checksum ->
  (List.length packet <= buffer_size)%nat ->
  (forall n port,
     In port ports ->
     serial_open w n port (GoInt.uint speed) = None
     /\ exists tail,
          rx (serial_session w n port (GoInt.uint speed) packet)
          = packet ++ tail) ->
  forall n, Forall is_valid (verdicts w speed packet checksum n ports).
Proof.
  intros Hpacket Hfit. induction ports as [|port rest IH]; intros Hecho n.
  - constructor.
  - cbn [verdicts]. constructor.
    + destruct (Hecho n port (or_introl eq_refl)) as (Hopen & tail & Hrx).
      rewrite port_verdict_opened by assumption.
      rewrite (received_prefix _ _ _ _ _ _ _ Hrx Hfit).
      assert (Hs : strings.HasSuffix packet checksum = true)
        by (apply HasSuffix_spec; exists data; exact Hpacket).
      rewrite Hs. exact I.
    + apply IH. intros m p Hp. apply Hecho. right. exact Hp.
Qed.

(** X4. A link on which every port opens and returns what was written to
    it, possibly followed by more bytes, verifies at every length up to
    9992: the call returns [true] with one latency for each port. *)
Theorem echo_always_verifies w ports length speed s :
  0 <= length <= 9992 ->
  (forall n port,
     In port ports ->
     serial_open w n port (GoInt.uint speed) = None
     /\ exists tail,
          rx (serial_session w n port (GoInt.uint speed) (packet_at w s length))
          = packet_at w s length ++ tail) ->
  exists ds,
    fst (test_transmission w ports length speed s) = Returned (true, ds)
    /\ List.length ds = List.length ports.
Proof.
  intros Hlen Hecho.
  rewrite test_transmission_unfold by lia. cbn zeta. cbn [fst].
  pose proof (echo_verdicts w speed (packet_at w s length)
                (checksum_of (payload_at w s length)) (payload_at w s length)
                ports eq_refl (fits_buffer w s length Hlen) Hecho
                (opens (seeded s))) as Hall.
  destruct (tx_ports_all_valid w speed _ _ ports [] (seeded s) Hall)
    as (ds & Hfst & Hmap).
  exists ds. split; [exact Hfst|].
  apply (f_equal (@List.length _)) in Hmap. rewrite length_map in Hmap.
  rewrite Hmap. clear. generalize (opens (seeded s)).
  induction ports as [|p ports IH]; intros n; cbn [verdicts List.length].
  - reflexivity.
  - rewrite IH. reflexivity.
Qed.

Lemma echo_always_verifies_witness :
  0 <= 16 <= 9992
  /\ exists ds,
       fst (test_transmission loopback ["COM1"%string; "COM2"%string] 16 9600
              initial) = Returned (true, ds)
       /\ List.length ds = 2%nat.
Proof.
  split; [lia|].
  apply (echo_always_verifies loopback ["COM1"%string; "COM2"%string] 16 9600
           initial); [lia|].
  intros n port _. split; [reflexivity|]. exists []. cbn [loopback
    serial_session echo_session rx]. symmetry. apply app_nil_r.
Defined.






Lemma oversize_panics w port rest length speed s :
  0 <= length <= max_payload ->
  serial_open w (opens s) port (GoInt.uint speed) = None ->
  (buffer_size < List.length (packet_at w s length))%nat ->
  exists s',
    test_transmission w (port :: rest) length speed s
    = (Panicked (Runtime (SliceBounds (List.length (packet_at w s length))
                            buffer_size)), s').
Proof.
  intros Hlen Hopen Hbig.
  rewrite test_transmission_unfold by lia. cbn zeta.
  rewrite tx_ports_step. change (opens (seeded s)) with (opens s).
  rewrite port_verdict_oversize by assumption. eexists. reflexivity.
Qed.

(** X7. From 10000 letters up to the longest payload that [make]
    allocates the packet is longer than the read buffer: once the first
    port has opened, cutting the buffer to the packet's length panics with
    a slice bound error, even on a perfect link. *)
Theorem long_packet_panics w port rest length speed s :
  10000 <= length <= max_payload ->
  serial_open w (opens s) port (GoInt.uint speed) = None ->
  fst (test_transmission w (port :: rest) length speed s)
  = Panicked (Runtime (SliceBounds (List.length (packet_at w s length))
                         buffer_size)).
Proof.
  intros Hlen Hopen.
  destruct (oversize_panics w port rest length speed s ltac:(lia) Hopen)
    as [s' Hs'].
  - rewrite packet_length.
    pose proof (checksum_length (payload_at w s length)).
    unfold buffer_size. lia.
  - rewrite Hs'. reflexivity.
Qed.

Lemma long_packet_panics_witness :
  10000 <= 10000 <= max_payload
  /\ serial_open loopback 0 "COM15"%string (GoInt.uint 9600) = None
  /\ exists hi,
       fst (test_transmission loopback ["COM15"%string] 10000 9600 initial)
       = Panicked (Runtime (SliceBounds hi buffer_size)).
Proof.
  split; [lia|]. split; [reflexivity|]. eexists.
  apply (long_packet_panics loopback "COM15"%string [] 10000 9600 initial);
    [lia|reflexivity].
Defined.

(** ** An empty device set *)

Lemma empty_set_transmission w length speed s :
  0 <= length <= max_payload ->
  test_transmission w [] length speed s
  = (Returned (true, []), run_deferred (seeded s)).
Proof.
  intros Hlen. rewrite test_transmission_unfold by assumption. reflexivity.
Qed.

Lemma empty_set_runs w length speed samples :
  0 <= length <= max_payload -> samples <= GoInt.max_int ->
  forall fuel i s,
    0 <= i -> (Z.to_nat (samples - i) <= fuel)%nat ->
    exists s',
      delay_runs fuel w [] length speed samples i [] s = (Returned [], s').
Proof.
  intros Hlen Hmax. induction fuel as [|fuel IH]; intros i s Hi Hfuel;
    cbn [delay_runs]; destruct (i <? samples) eqn:E;
    try (eexists; reflexivity); try (apply Z.ltb_lt in E; lia).
  apply Z.ltb_lt in E.
  rewrite (bind_returned _ _ _ _ _ (empty_set_transmission w length speed s Hlen)).
  cbn [negb app].
  rewrite (int_succ i samples) by (unfold GoInt.min_int; lia).
  apply IH; lia.
Qed.

(** X8. With no port in the set, and a length from 0 up to the longest
    payload that [make] allocates, nothing is opened and every
    transmission counts as verified; the profiler then has no latency at
    all and returns not-a-number, however many samples are asked for. *)
Theorem empty_device_set w length speed :
  0 <= length <= max_payload ->
  (forall s,
     fst (test_transmission w [] length speed s) = Returned (true, [])
     /\ opens (snd (test_transmission w [] length speed s)) = opens s)
  /\ (forall samples s,
        samples <= GoInt.max_int ->
        fst (test_for_delay w [] length speed samples s) = Returned nan).
Proof.
  intros Hlen. split.
  - intros s. rewrite empty_set_transmission by assumption. split; reflexivity.
  - intros samples s Hmax. unfold test_for_delay.
    destruct (empty_set_runs w length speed samples Hlen Hmax
                (Z.to_nat samples) 0 s (Z.le_refl 0) ltac:(lia)) as [s' Hs'].
    rewrite (bind_returned _ _ _ _ _ Hs'). reflexivity.
Qed.

Lemma empty_device_set_witness :
  0 <= 10 <= max_payload /\ 10 <= GoInt.max_int
  /\ fst (test_for_delay unplugged [] 10 9600 10 initial) = Returned nan.
Proof.
  assert (H : 10 <= GoInt.max_int) by int_range.
  split; [lia|]. split; [exact H|].
  exact (proj2 (empty_device_set unplugged 10 9600 ltac:(lia)) 10 initial H).
Defined.

(** ** What the searches return *)

Lemma tx_ports_seeds w speed packet checksum ports :
  forall delays s,
    seeds (snd (tx_ports w speed packet checksum ports delays s)) = seeds s.
Proof.
  induction ports as [|port rest IH]; intros delays s.
  - reflexivity.
  - rewrite tx_ports_step.
    assert (Ha : seeds (after_port w speed packet port s) = seeds s)
      by (unfold after_port; destruct serial_open; reflexivity).
    destruct port_verdict; [rewrite IH|..]; exact Ha.
Qed.

(** Every call reseeds once, however it ends: the reseedings count the
    transmissions of a run. *)
Lemma test_transmission_seeds w ports length speed s :
  seeds (snd (test_transmission w ports length speed s)) = S (seeds s).
Proof.
  destruct (length_in_range length) as [Hok|Hbad].
  - rewrite test_transmission_unfold by assumption. cbn zeta.
    cbn [snd run_deferred seeds]. rewrite tx_ports_seeds. reflexivity.
  - rewrite test_transmission_refused by assumption. reflexivity.
Qed.

Lemma verified_between_widen w ports length v s s1 s' :
  (seeds s <= seeds s1)%nat ->
  verified_between w ports length v s1 s' ->
  verified_between w ports length v s s'.
Proof.
  intros Hle (s0 & d & s2 & Htx & H1 & H2).
  exists s0, d, s2. repeat split; [exact Htx|lia|exact H2].
Qed.

Lemma verified_between_extend w ports length v s s1 s' :
  (seeds s1 <= seeds s')%nat ->
  verified_between w ports length v s s1 ->
  verified_between w ports length v s s'.
Proof.
  intros Hle (s0 & d & s2 & Htx & H1 & H2).
  exists s0, d, s2. repeat split; [exact Htx|exact H1|lia].
Qed.

Lemma speed_sweep_verified w ports length max_speed min_speed :
  forall fuel speed last s l m s',
    speed_sweep fuel w ports length max_speed min_speed speed last s
    = (Returned (l, m), s') ->
    (seeds s <= seeds s')%nat
    /\ (l = last
        \/ (l < max_speed /\ verified_between w ports length l s s')).
Proof.
  induction fuel as [|fuel IH]; intros speed last s l m s' H;
    cbn [speed_sweep] in H; destruct (speed <? max_speed) eqn:Elt;
    try discriminate;
    try (injection H as <- <- <-; split; [lia|left; reflexivity]).
  apply Z.ltb_lt in Elt. unfold bind at 1 in H.
  pose proof (test_transmission_seeds w ports length speed s) as Hseeds.
  destruct (test_transmission w ports length speed s)
    as [[[[] d]|p|] s1] eqn:Etx; try discriminate; cbn [snd] in Hseeds.
  - unfold int_div in H. destruct (min_speed =? 0); [discriminate|].
    unfold bind, ret in H.
    apply IH in H. destruct H as [Hle [->|[Hl Hv]]].
    + split; [lia|]. right. split; [exact Elt|].
      exists s, d, s1. repeat split; [exact Etx|lia|exact Hle].
    + split; [lia|]. right. split; [exact Hl|].
      apply (verified_between_widen _ _ _ _ s s1); [lia|exact Hv].
  - injection H as <- <- <-. split; [lia|left; reflexivity].
Qed.

Lemma speed_passes_verified w ports length max_speed res fuel :
  forall passes min_speed last s r s',
    speed_passes passes fuel w ports length max_speed res min_speed last s
    = (Returned r, s') ->
    (seeds s <= seeds s')%nat
    /\ (r = last
        \/ (r < max_speed /\ verified_between w ports length r s s')).
Proof.
  induction passes as [|passes IH]; intros min_speed last s r s' H;
    cbn [speed_passes] in H.
  - injection H as <- <-. split; [lia|left; reflexivity].
  - unfold bind at 1 in H. unfold int_div in H.
    destruct (min_speed =? 0); [discriminate|]. unfold ret at 1 in H.
    destruct (GoInt.wrap (max_speed ÷ min_speed) <? 1).
    { injection H as <- <-. split; [lia|left; reflexivity]. }
    unfold bind at 1 in H.
    destruct (speed_sweep fuel w ports length max_speed min_speed min_speed
                last s) as [[[l m]|p|] s1] eqn:Esweep; try discriminate.
    apply speed_sweep_verified in Esweep. destruct Esweep as [Hle1 Hl].
    assert (Hrest : (seeds s1 <= seeds s')%nat
                    /\ (r = l \/ (r < max_speed
                                  /\ verified_between w ports length r s1 s'))).
    { destruct res.
      - injection H as <- <-. split; [lia|left; reflexivity].
      - apply IH in H. exact H. }
    destruct Hrest as [Hle2 [->|[Hr Hv]]].
    + split; [lia|]. destruct Hl as [->|[Hl Hv]]; [left; reflexivity|].
      right. split; [exact Hl|].
      apply (verified_between_extend _ _ _ _ s s1); assumption.
    + split; [lia|]. right. split; [exact Hr|].
      apply (verified_between_widen _ _ _ _ s s1); assumption.
Qed.

(** X9. Whenever the speed search returns, it returns 0 or a speed below
    [max_speed] at which a transmission of this run verified. *)
Theorem speed_search_returns_verified_speed
    fuel w ports length min_speed max_speed s r s' :
  test_for_speed fuel w ports length min_speed max_speed s = (Returned r, s') ->
  r = 0 \/ (r < max_speed /\ verified_between w ports length r s s').
Proof.
  intros H. unfold test_for_speed in H. cbv zeta in H.
  apply speed_passes_verified in H. apply H.
Qed.

Lemma speed_search_returns_verified_speed_witness :
  test_for_speed 8 (fading 3) ["COM15"%string] 20 9600 9602 initial
  = (Returned 9600,
     snd (test_for_speed 8 (fading 3) ["COM15"%string] 20 9600 9602 initial))
  /\ (9600 = 0
      \/ (9600 < 9602
          /\ verified_between (fading 3) ["COM15"%string] 20 9600 initial
               (snd (test_for_speed 8 (fading 3) ["COM15"%string] 20 9600 9602
                       initial)))).
Proof.
  assert (H : test_for_speed 8 (fading 3) ["COM15"%string] 20 9600 9602 initial
              = (Returned 9600,
                 snd (test_for_speed 8 (fading 3) ["COM15"%string] 20 9600 9602
                        initial)))
    by (vm_compute; reflexivity).
  split; [exact H|].
  exact (speed_search_returns_verified_speed _ _ _ _ _ _ _ _ _ H).
Defined.

Lemma int_div_quot a b s :
  1 <= b -> GoInt.is_int a -> int_div a b s = (Returned (Z.quot a b), s).
Proof.
  intros Hb [Hlo Hhi]. unfold int_div.
  destruct (b =? 0) eqn:E; [apply Z.eqb_eq in E; lia|].
  unfold ret. f_equal. f_equal.
  unfold GoInt.wrap, GoInt.min_int, GoInt.max_int in *.
  assert (Hq : - 2 ^ 63 <= Z.quot a b <= 2 ^ 63 - 1).
  { destruct (Z.le_ge_cases 0 a) as [Hp|Hn].
    - pose proof (Z.quot_pos a b Hp ltac:(lia)).
      pose proof (Z.quot_le_upper_bound a b a ltac:(lia) ltac:(nia)). lia.
    - pose proof (Z.quot_opp_l a b ltac:(lia)) as Ho.
      pose proof (Z.quot_pos (- a) b ltac:(lia) ltac:(lia)).
      pose proof (Z.quot_le_upper_bound (- a) b (- a) ltac:(lia) ltac:(nia)).
      lia. }
  rewrite Z.mod_small by lia. lia.
Qed.

Lemma speed_sweep_skipped fuel w ports length max_speed min_speed speed last s :
  max_speed <= speed ->
  speed_sweep fuel w ports length max_speed min_speed speed last s
  = (Returned (last, min_speed), s).
Proof.
  intros Hle. apply Z.ltb_ge in Hle.
  destruct fuel; cbn [speed_sweep]; rewrite Hle; reflexivity.
Qed.

(** X10. When [max_speed] is not above [min_speed] (and [min_speed] is
    at least 1) the speed search returns 0 and leaves the state as it
    found it: no speed is tested. *)
Theorem speed_search_needs_room fuel w ports length min_speed max_speed s :
  1 <= min_speed -> max_speed <= min_speed -> GoInt.is_int max_speed ->
  test_for_speed fuel w ports length min_speed max_speed s = (Returned 0, s).
Proof.
  intros Hmin Hle Hint. unfold test_for_speed. cbv zeta.
  generalize 0 as last. generalize 2%nat as passes.
  induction passes as [|passes IH]; intros last; cbn [speed_passes].
  - reflexivity.
  - rewrite (bind_returned _ _ _ _ _ (int_div_quot _ _ s Hmin Hint)).
    destruct (max_speed ÷ min_speed <? 1) eqn:E; [reflexivity|].
    rewrite (bind_returned _ _ _ _ _
               (speed_sweep_skipped fuel w ports length max_speed min_speed
                  min_speed last s Hle)).
    apply IH.
Qed.

Lemma speed_search_needs_room_witness :
  1 <= 100 /\ 50 <= 100 /\ GoInt.is_int 50
  /\ test_for_speed 8 loopback ["COM15"%string] 20 100 50 initial
     = (Returned 0, initial).
Proof.
  assert (H : GoInt.is_int 50) by int_range.
  split; [lia|]. split; [lia|]. split; [exact H|].
  apply speed_search_needs_room; [lia|lia|exact H].
Defined.

Lemma quot_le_self a b : 0 <= a -> 1 <= b -> Z.quot a b <= a.
Proof. intros Ha Hb. apply Z.quot_le_upper_bound; [lia|nia]. Qed.

Lemma speed_sweep_has_fuel w ports length max_speed min_speed :
  1 <= min_speed -> max_speed <= 2 ^ 62 -> 1 <= Z.quot max_speed min_speed ->
  forall fuel speed last s,
    min_speed <= speed ->
    (Z.to_nat (max_speed - speed) <= fuel)%nat ->
    match speed_sweep fuel w ports length max_speed min_speed speed last s with
    | (Returned (l, m), _) => min_speed <= m
    | (Panicked p, s') =>
        exists v s0, test_transmission w ports length v s0 = (Panicked p, s')
    | (OutOfFuel, _) => False
    end.
Proof.
  intros Hmin Hmax Hq.
  induction fuel as [|fuel IH]; intros speed last s Hspeed Hfuel;
    cbn [speed_sweep]; destruct (speed <? max_speed) eqn:Elt;
    try (apply Z.ltb_lt in Elt; lia); try (unfold ret; lia).
  apply Z.ltb_lt in Elt. unfold bind at 1.
  pose proof (test_transmission_has_fuel w ports length speed s) as Hnf.
  destruct (test_transmission w ports length speed s)
    as [[[[] d]|p|] s1] eqn:Etx.
  - assert (Hint : GoInt.is_int max_speed) by int_range.
    rewrite (bind_returned _ _ _ _ _ (int_div_quot _ _ s1 Hmin Hint)).
    pose proof (quot_le_self max_speed min_speed ltac:(lia) Hmin) as Hstep.
    assert (Hadd : GoInt.add speed (Z.quot max_speed min_speed)
                   = speed + Z.quot max_speed min_speed).
    { unfold GoInt.add, GoInt.wrap. rewrite Z.mod_small by lia. lia. }
    rewrite Hadd. apply IH; lia.
  - unfold ret. lia.
  - exists speed, s. exact Etx.
  - apply Hnf. reflexivity.
Qed.

Lemma speed_passes_has_fuel w ports length max_speed res fuel :
  GoInt.min_int <= max_speed <= 2 ^ 62 ->
  forall passes min_speed last s,
    1 <= min_speed ->
    (Z.to_nat (max_speed - min_speed) <= fuel)%nat ->
    match speed_passes passes fuel w ports length max_speed res min_speed
            last s with
    | (Returned _, _) => True
    | (Panicked p, s') =>
        exists v s0, test_transmission w ports length v s0 = (Panicked p, s')
    | (OutOfFuel, _) => False
    end.
Proof.
  intros Hmax. induction passes as [|passes IH];
    intros min_speed last s Hmin Hfuel; cbn [speed_passes].
  - exact I.
  - assert (Hint : GoInt.is_int max_speed) by int_range.
    rewrite (bind_returned _ _ _ _ _ (int_div_quot _ _ s Hmin Hint)).
    destruct (max_speed ÷ min_speed <? 1) eqn:E; [exact I|].
    apply Z.ltb_ge in E. unfold bind at 1.
    pose proof (speed_sweep_has_fuel w ports length max_speed min_speed Hmin
                  (proj2 Hmax) E fuel min_speed last s (Z.le_refl _) Hfuel)
      as Hsweep.
    destruct (speed_sweep fuel w ports length max_speed min_speed min_speed
                last s) as [[[l m]|p|] s1].
    + destruct res; [exact I|]. apply IH; lia.
    + exact Hsweep.
    + exact Hsweep.
Qed.

(** X11. For a [min_speed] from 1 up and a [max_speed] up to 2^62 the
    speed search ends: with as many rounds as there are speeds between
    the bounds no sweep runs out of them, since every step is at least 1
    and no sum wraps around. It then returns, unless a transmission
    panics. *)
Theorem speed_search_ends fuel w ports length min_speed max_speed s :
  1 <= min_speed -> GoInt.min_int <= max_speed <= 2 ^ 62 ->
  (Z.to_nat (max_speed - min_speed) <= fuel)%nat ->
  let r := test_for_speed fuel w ports length min_speed max_speed s in
  fst r <> OutOfFuel
  /\ forall p,
       fst r = Panicked p ->
       exists v s0,
         test_transmission w ports length v s0 = (Panicked p, snd r).
Proof.
  intros Hmin Hmax Hfuel r. subst r. unfold test_for_speed. cbv zeta.
  pose proof (speed_passes_has_fuel w ports length max_speed false fuel Hmax
                2 min_speed 0 s Hmin Hfuel) as H.
  destruct (speed_passes 2 fuel w ports length max_speed false min_speed 0 s)
    as [[r|p|] s'].
  - split; [discriminate|]. intros p Hp. discriminate.
  - split; [discriminate|]. intros q Hq. injection Hq as <-. exact H.
  - contradiction.
Qed.

Lemma speed_search_ends_witness :
  1 <= 9600 /\ GoInt.min_int <= 9700 <= 2 ^ 62
  /\ (Z.to_nat (9700 - 9600) <= 100)%nat
  /\ fst (test_for_speed 100 loopback ["COM15"%string] 20 9600 9700 initial)
     <> OutOfFuel.
Proof.
  assert (H : GoInt.min_int <= 9700 <= 2 ^ 62) by (unfold GoInt.min_int; lia).
  split; [lia|]. split; [exact H|]. split; [lia|].
  exact (proj1 (speed_search_ends 100 loopback ["COM15"%string] 20 9600 9700
                  initial ltac:(lia) H ltac:(lia))).
Defined.

(** ** What the length search returns *)

Lemma length_sweep_verified w ports speed max_length :
  max_length <= GoInt.max_int ->
  forall fuel length last s e s',
    GoInt.min_int <= length ->
    length_sweep fuel w ports speed max_length length last s
    = (Returned e, s') ->
    (seeds s <= seeds s')%nat
    /\ (exit_value e = last
        \/ (length <= exit_value e < max_length
            /\ verified_between w ports (exit_value e) speed s s')).
Proof.
  intros Hmax. induction fuel as [|fuel IH]; intros length last s e s' Hmin H;
    cbn [length_sweep] in H; destruct (length <? max_length) eqn:Elt;
    try discriminate;
    try (injection H as <- <-; split; [lia|left; reflexivity]).
  apply Z.ltb_lt in Elt. unfold bind at 1 in H.
  pose proof (test_transmission_seeds w ports length speed s) as Hseeds.
  destruct (test_transmission w ports length speed s)
    as [[[[] d]|p|] s1] eqn:Etx; try discriminate; cbn [snd] in Hseeds.
  - rewrite (int_succ length max_length) in H by assumption.
    apply IH in H; [|lia]. destruct H as [Hle [Heq|[Hr Hv]]].
    + split; [lia|]. right. rewrite Heq. split; [lia|].
      exists s, d, s1. repeat split; [exact Etx|lia|exact Hle].
    + split; [lia|]. right. split; [lia|].
      apply (verified_between_widen _ _ _ _ s s1); [lia|exact Hv].
  - injection H as <- <-. split; [lia|left; reflexivity].
Qed.

(** X12. Whenever the length search returns, it returns 0 or a length of
    the range, from [min_length] up and below [max_length], at which a
    transmission of this run verified. *)
Theorem length_search_returns_verified_length
    w ports speed min_length max_length s r s' :
  GoInt.is_int min_length -> GoInt.is_int max_length ->
  test_for_length w ports speed min_length max_length s = (Returned r, s') ->
  r = 0
  \/ (min_length <= r < max_length
      /\ verified_between w ports r speed s s').
Proof.
  intros [Hmin _] [_ Hmax] H. unfold test_for_length in H. cbv zeta in H.
  cbn [length_passes] in H. unfold bind at 1 in H.
  destruct (length_sweep (Z.to_nat (max_length - min_length)) w ports speed
              max_length min_length 0 s) as [[e1|p|] s1] eqn:E1;
    try discriminate.
  apply (length_sweep_verified w ports speed max_length Hmax) in E1;
    [|exact Hmin]. destruct E1 as [Hle1 H1].
  destruct e1 as [v1|v1]; cbn [exit_value] in H1.
  - unfold bind at 1 in H.
    destruct (length_sweep (Z.to_nat (max_length - min_length)) w ports speed
                max_length min_length v1 s1) as [[e2|p|] s2] eqn:E2;
      try discriminate.
    apply (length_sweep_verified w ports speed max_length Hmax) in E2;
      [|exact Hmin]. destruct E2 as [Hle2 H2].
    assert (Hr : r = exit_value e2 /\ s' = s2)
      by (destruct e2; injection H as <- <-; split; reflexivity).
    destruct Hr as [-> ->].
    destruct H2 as [->|[Hr Hv]].
    + destruct H1 as [->|[Hr Hv]]; [left; reflexivity|].
      right. split; [exact Hr|].
      apply (verified_between_extend _ _ _ _ s s1); assumption.
    + right. split; [exact Hr|].
      apply (verified_between_widen _ _ _ _ s s1); assumption.
  - injection H as <- <-. exact H1.
Qed.

Lemma length_search_returns_verified_length_witness :
  GoInt.is_int 5 /\ GoInt.is_int 8
  /\ (5 = 0
      \/ (5 <= 5 < 8
          /\ verified_between (fading 4) ["COM15"%string] 5 9600 initial
               (snd (test_for_length (fading 4) ["COM15"%string] 9600 5 8
                       initial)))).
Proof.
  assert (H5 : GoInt.is_int 5) by int_range.
  assert (H8 : GoInt.is_int 8) by int_range.
  split; [exact H5|]. split; [exact H8|].
  apply (length_search_returns_verified_length (fading 4) ["COM15"%string]
           9600 5 8 initial 5 _ H5 H8).
  vm_compute. reflexivity.
Defined.

(** X13. On an empty range, [max_length] not above [min_length], the
    length search returns 0 and leaves the state as it found it. *)
Theorem length_search_empty_range w ports speed min_length max_length s :
  max_length <= min_length ->
  test_for_length w ports speed min_length max_length s = (Returned 0, s).
Proof.
  intros Hle. unfold test_for_length. cbv zeta.
  assert (Hsweep : forall last,
             length_sweep (Z.to_nat (max_length - min_length)) w ports speed
               max_length min_length last s = (Returned (Completed last), s)).
  { intros last. apply Z.ltb_ge in Hle.
    destruct (Z.to_nat (max_length - min_length)); cbn [length_sweep];
      rewrite Hle; reflexivity. }
  cbn [length_passes].
  rewrite (bind_returned _ _ _ _ _ (Hsweep 0)).
  rewrite (bind_returned _ _ _ _ _ (Hsweep 0)). reflexivity.
Qed.

Lemma length_search_empty_range_witness :
  100 <= 100
  /\ test_for_length loopback ["COM15"%string] 9600 100 100 initial
     = (Returned 0, initial).
Proof.
  split; [lia|]. apply length_search_empty_range. lia.
Defined.

(** ** The statistics *)

Lemma stats_step_picks st v :
  (min_delay (stats_step st v) = min_delay st
   \/ min_delay (stats_step st v) = v)
  /\ (max_delay (stats_step st v) = max_delay st
      \/ max_delay (stats_step st v) = v).
Proof.
  unfold stats_step. cbn [min_delay max_delay].
  destruct (PrimFloat.eqb (min_delay st) 0), (PrimFloat.eqb (max_delay st) 0);
    repeat match goal with
           | |- context [if ?c then _ else _] => destruct c
           end; auto.
Qed.

Lemma stats_fold_picks ds : forall st,
  (min_delay (fold_left stats_step ds st) = min_delay st
   \/ In (min_delay (fold_left stats_step ds st)) ds)
  /\ (max_delay (fold_left stats_step ds st) = max_delay st
      \/ In (max_delay (fold_left stats_step ds st)) ds).
Proof.
  induction ds as [|v ds IH]; intros st; cbn [fold_left].
  - split; left; reflexivity.
  - destruct (IH (stats_step st v)) as [Hmin Hmax].
    destruct (stats_step_picks st v) as [Pmin Pmax]. split.
    + destruct Hmin as [->|Hin]; [|right; right; exact Hin].
      destruct Pmin as [->| ->]; [left; reflexivity|right; left; reflexivity].
    + destruct Hmax as [->|Hin]; [|right; right; exact Hin].
      destruct Pmax as [->| ->]; [left; reflexivity|right; left; reflexivity].
Qed.

(** X14. As soon as one latency is collected, the minimum and the maximum
    the profiler reports are latencies it collected. *)
Theorem reported_extremes_are_samples ds :
  ds <> [] ->
  In (min_delay (stats_of ds)) ds /\ In (max_delay (stats_of ds)) ds.
Proof.
  destruct ds as [|v ds]; [contradiction|]. intros _.
  unfold stats_of. cbn [fold_left].
  set (st0 := {| total := 0%float; min_delay := 0%float; max_delay := 0%float |}).
  assert (Hfirst : min_delay (stats_step st0 v) = v
                   /\ max_delay (stats_step st0 v) = v).
  { unfold stats_step, st0. cbn [min_delay max_delay].
    change (PrimFloat.eqb 0 0) with true. cbv iota.
    destruct (PrimFloat.ltb v v); split; reflexivity. }
  destruct Hfirst as [Hmin Hmax].
  destruct (stats_fold_picks ds (stats_step st0 v)) as [Smin Smax]. split.
  - destruct Smin as [->|Hin]; [left; symmetry; exact Hmin|right; exact Hin].
  - destruct Smax as [->|Hin]; [left; symmetry; exact Hmax|right; exact Hin].
Qed.

Lemma reported_extremes_are_samples_witness :
  [0%float; 1000000%float] <> []
  /\ In (min_delay (stats_of [0%float; 1000000%float]))
        [0%float; 1000000%float].
Proof.
  assert (H : [0%float; 1000000%float] <> []) by discriminate.
  split; [exact H|].
  exact (proj1 (reported_extremes_are_samples _ H)).
Defined.

(** ** What the profiler averages *)

Lemma delay_runs_collected w ports length speed samples :
  samples <= GoInt.max_int ->
  forall fuel i acc s out s',
    0 <= i ->
    delay_runs fuel w ports length speed samples i acc s = (Returned out, s') ->
    exists k ds s1,
      out = acc ++ ds
      /\ collected w ports length speed s k ds s1
      /\ Z.of_nat k <= Z.max 0 (samples - i)
      /\ ((s' = s1 /\ Z.of_nat k = Z.max 0 (samples - i))
          \/ exists d,
               test_transmission w ports length speed s1
               = (Returned (false, d), s')).
Proof.
  intros Hmax. induction fuel as [|fuel IH]; intros i acc s out s' Hi H;
    cbn [delay_runs] in H; destruct (i <? samples) eqn:Elt;
    try discriminate;
    try (apply Z.ltb_ge in Elt; injection H as <- <-;
         exists 0%nat, [], s; rewrite app_nil_r;
         repeat split; [constructor|lia|left; split; [reflexivity|lia]]).
  apply Z.ltb_lt in Elt. unfold bind at 1 in H.
  destruct (test_transmission w ports length speed s)
    as [[[[] d]|p|] s1] eqn:Etx; try discriminate; cbn [negb] in H.
  - rewrite (int_succ i samples) in H by (unfold GoInt.min_int; lia).
    apply IH in H; [|lia].
    destruct H as (k & ds & s2 & -> & Hcol & Hk & Hend).
    exists (S k), (d ++ ds), s2. rewrite app_assoc. repeat split.
    + econstructor; eassumption.
    + lia.
    + destruct Hend as [[-> Hk']|Hfail]; [left; split; [reflexivity|lia]|].
      right. exact Hfail.
  - injection H as <- <-. exists 0%nat, [], s. rewrite app_nil_r.
    repeat split; [constructor|lia|].
    right. exists d. exact Etx.
Qed.

Lemma total_is_sum ds : forall st,
  total (fold_left stats_step ds st) = fold_left PrimFloat.add ds (total st).
Proof.
  induction ds as [|v ds IH]; intros st; cbn [fold_left].
  - reflexivity.
  - rewrite IH. reflexivity.
Qed.

(** X15. When the profiler returns, it has run transmissions one after
    the other until the first that did not verify, at most [samples] of
    them. The value it returns is the sum of the latencies of all ports in
    the runs that verified, added in order from 0, divided by their
    number. The three lines it prints carry the maximum and the minimum
    that its loop of lines 205 to 219 leaves for these latencies, and that
    mean. *)
Theorem profiler_averages_verified_runs
    w ports length speed samples s avg s' :
  samples <= GoInt.max_int ->
  test_for_delay w ports length speed samples s = (Returned avg, s') ->
  exists k ds s1 s2,
    collected w ports length speed s k ds s1
    /\ Z.of_nat k <= Z.max 0 samples
    /\ ((s2 = s1 /\ Z.of_nat k = Z.max 0 samples)
        \/ exists d,
             test_transmission w ports length speed s1
             = (Returned (false, d), s2))
    /\ avg = PrimFloat.div (fold_left PrimFloat.add ds 0%float)
                (GoInt.float64 (Z.of_nat (List.length ds)))
    /\ s' = report ds s2.
Proof.
  intros Hmax H. unfold test_for_delay in H. unfold bind at 1 in H.
  destruct (delay_runs (Z.to_nat samples) w ports length speed samples 0 [] s)
    as [[out|p|] s2] eqn:Eruns; try discriminate.
  apply (delay_runs_collected w ports length speed samples Hmax) in Eruns;
    [|lia].
  destruct Eruns as (k & ds & s1 & Hout & Hcol & Hk & Hend).
  cbn [app] in Hout. subst out. rewrite Z.sub_0_r in Hk, Hend.
  exists k, ds, s1, s2. cbv zeta in H.
  unfold bind, Println, ret in H. injection H as <- <-.
  repeat split; try assumption.
  unfold average, stats_of. rewrite total_is_sum. reflexivity.
Qed.

Lemma profiler_averages_verified_runs_witness :
  5 <= GoInt.max_int
  /\ test_for_delay (fading 2) ["COM15"%string] 10 9600 5 initial
     = (Returned 1000000%float,
        snd (test_for_delay (fading 2) ["COM15"%string] 10 9600 5 initial))
  /\ exists k ds s1 s2,
       collected (fading 2) ["COM15"%string] 10 9600 initial k ds s1
       /\ Z.of_nat k <= Z.max 0 5
       /\ ((s2 = s1 /\ Z.of_nat k = Z.max 0 5)
           \/ exists d,
                test_transmission (fading 2) ["COM15"%string] 10 9600 s1
                = (Returned (false, d), s2))
       /\ 1000000%float
          = PrimFloat.div (fold_left PrimFloat.add ds 0%float)
              (GoInt.float64 (Z.of_nat (List.length ds)))
       /\ snd (test_for_delay (fading 2) ["COM15"%string] 10 9600 5 initial)
          = report ds s2.
Proof.
  assert (H5 : 5 <= GoInt.max_int) by int_range.
  assert (H : test_for_delay (fading 2) ["COM15"%string] 10 9600 5 initial
              = (Returned 1000000%float,
                 snd (test_for_delay (fading 2) ["COM15"%string] 10 9600 5
                        initial)))
    by (vm_compute; reflexivity).
  split; [exact H5|]. split; [exact H|].
  exact (profiler_averages_verified_runs _ _ _ _ _ _ _ _ H5 H).
Defined.

(** ** main *)

Lemma printed_app a b : printed (a ++ b) = printed a ++ printed b.
Proof. unfold printed. apply flat_map_app. Qed.

Lemma printed_closes ports : printed (map EvClose ports) = [].
Proof. induction ports as [|p ports IH]; [reflexivity|exact IH]. Qed.

Lemma open_failure_transmission w port rest length speed s msg :
  0 <= length <= max_payload ->
  serial_open w (opens s) port (GoInt.uint speed) = Some msg ->
  exists s',
    test_transmission w (port :: rest) length speed s
    = (Panicked (ErrorText msg), s')
    /\ printed (trace s') = printed (trace s).
Proof.
  intros Hlen Hopen. rewrite test_transmission_unfold by assumption.
  cbn zeta. rewrite tx_ports_step. unfold port_verdict, after_port.
  change (opens (seeded s)) with (opens s). rewrite Hopen.
  eexists. split; [reflexivity|].
  cbn [snd run_deferred trace seeded deferred].
  rewrite !printed_app, printed_closes, !app_nil_r. reflexivity.
Qed.

(** X16. When the port cannot be opened, [main] panics with the error's
    message on its first transmission and prints nothing. *)
Theorem main_aborts_on_open_error fuel w s msg :
  (1 <= fuel)%nat ->
  serial_open w (opens s) "COM15"%string (GoInt.uint 9600) = Some msg ->
  fst (main fuel w s) = Panicked (ErrorText msg)
  /\ printed (trace (snd (main fuel w s))) = printed (trace s).
Proof.
  intros Hfuel Hopen.
  destruct (open_failure_transmission w "COM15"%string [] 20 9600 s msg
              ltac:(lia) Hopen) as (s' & Htx & Hprinted).
  assert (Hspeed : test_for_speed fuel w ["COM15"%string] 20 9600 1000000 s
                   = (Panicked (ErrorText msg), s')).
  { unfold test_for_speed. cbv zeta. cbn [speed_passes].
    assert (Hint : GoInt.is_int 1000000) by int_range.
    rewrite (bind_returned _ _ _ _ _
               (int_div_quot 1000000 9600 s ltac:(lia) Hint)).
    change (1000000 ÷ 9600 <? 1) with false. cbv iota.
    apply bind_panicked. destruct fuel as [|fuel]; [lia|].
    cbn [speed_sweep]. change (9600 <? 1000000) with true. cbv iota.
    apply bind_panicked. exact Htx. }
  unfold main. cbv zeta. rewrite (bind_panicked _ _ _ _ _ Hspeed).
  split; [reflexivity|exact Hprinted].
Qed.

Lemma main_aborts_on_open_error_witness :
  (1 <= 1)%nat
  /\ serial_open unplugged 0 "COM15"%string (GoInt.uint 9600)
     = Some "open: no such file or directory"%string
  /\ fst (main 1 unplugged initial)
     = Panicked (ErrorText "open: no such file or directory").
Proof.
  split; [lia|]. split; [reflexivity|].
  exact (proj1 (main_aborts_on_open_error 1 unplugged initial _
                  (Nat.le_refl 1) eq_refl)).
Defined.

Lemma echoes_everywhere w speed packet ports :
  echoes w ->
  forall n port,
    In port ports ->
    serial_open w n port (GoInt.uint speed) = None
    /\ exists tail,
         rx (serial_session w n port (GoInt.uint speed) packet) = packet ++ tail.
Proof.
  intros Hecho n port _. destruct (Hecho n port (GoInt.uint speed) packet)
    as [Hopen Hrx].
  split; [exact Hopen|]. exists []. rewrite app_nil_r. exact Hrx.
Qed.

Lemma echoes_open w n port baud :
  echoes w -> serial_open w n port baud = None.
Proof. intros Hecho. apply (Hecho n port baud []). Qed.

(** On a link that echoes, a transmission returns [true] when the packet
    fits the buffer and panics on the slice when it does not. *)
Lemma echo_transmission_cases w port rest length speed s :
  echoes w -> 0 <= length <= max_payload ->
  (exists ds s',
     test_transmission w (port :: rest) length speed s
     = (Returned (true, ds), s'))
  \/ ((buffer_size < List.length (packet_at w s length))%nat
      /\ exists s',
           test_transmission w (port :: rest) length speed s
           = (Panicked (Runtime (SliceBounds
                                   (List.length (packet_at w s length))
                                   buffer_size)), s')).
Proof.
  intros Hecho Hlen.
  destruct (Nat.le_gt_cases (List.length (packet_at w s length)) buffer_size)
    as [Hfit|Hbig].
  - left. rewrite test_transmission_unfold by assumption. cbn zeta.
    pose proof (echo_verdicts w speed (packet_at w s length)
                  (checksum_of (payload_at w s length)) (payload_at w s length)
                  (port :: rest) eq_refl Hfit
                  (echoes_everywhere w speed _ _ Hecho) (opens (seeded s)))
      as Hall.
    destruct (tx_ports_all_valid w speed _ _ (port :: rest) [] (seeded s) Hall)
      as (ds & Hfst & _).
    destruct (tx_ports w speed (packet_at w s length)
                (checksum_of (payload_at w s length)) (port :: rest) []
                (seeded s)) as [out s1].
    cbn [fst snd] in *. subst out. eauto.
  - right. split; [exact Hbig|].
    apply oversize_panics; [assumption| |exact Hbig].
    apply echoes_open. exact Hecho.
Qed.

Lemma succeeds_inside w ports speed s l l' s' :
  succeeds w ports speed s l l' s' ->
  forall f,
    l <= f < l' ->
    exists s0 d s1,
      test_transmission w ports f speed s0 = (Returned (true, d), s1).
Proof.
  induction 1 as [s l|s l d s1 l' s' Htx _ IH]; intros f Hf.
  - lia.
  - destruct (Z.eq_dec f l) as [->|Hne]; [eauto|]. apply IH. lia.
Qed.

(** X17. On a link where the port opens and echoes every packet, [main]
    does not finish: the length search runs on until the packet outgrows
    the read buffer of 10000 bytes, and the program panics with a slice
    bound error. *)
Theorem main_panics_on_perfect_link fuel w s :
  echoes w ->
  (Z.to_nat 990400 <= fuel)%nat ->
  exists hi,
    (buffer_size < hi)%nat
    /\ fst (main fuel w s) = Panicked (Runtime (SliceBounds hi buffer_size)).
Proof.
  intros Hecho Hfuel.
  (* the speed search returns *)
  assert (Hspeed : exists v s1,
             test_for_speed fuel w ["COM15"%string] 20 9600 1000000 s
             = (Returned v, s1)).
  { unfold test_for_speed. cbv zeta.
    pose proof (speed_passes_has_fuel w ["COM15"%string] 20 1000000 false fuel
                  ltac:(unfold GoInt.min_int; lia) 2 9600 0 s ltac:(lia)
                  ltac:(lia)) as H.
    destruct (speed_passes 2 fuel w ["COM15"%string] 20 1000000 false 9600 0 s)
      as [[v|p|] s1]; [eauto| |contradiction].
    destruct H as (v & s0 & Hp).
    destruct (echo_transmission_cases w "COM15"%string [] 20 v s0 Hecho
                ltac:(lia)) as [(ds & s2 & Hr)|[Hbig _]].
    - rewrite Hr in Hp. discriminate.
    - exfalso. pose proof (fits_buffer w s0 20 ltac:(lia)) as Hfit. lia. }
  destruct Hspeed as (v & s1 & Hspeed).
  (* the first sweep of the length search panics on the slice *)
  set (s2 := emit (EvPrintln [PStr "Last known working speed:"; PStr (Itoa v)])
               s1).
  assert (Hlength : exists hi s3,
             (buffer_size < hi)%nat
             /\ test_for_length w ["COM15"%string] v 100 100000 s2
                = (Panicked (Runtime (SliceBounds hi buffer_size)), s3)).
  { unfold test_for_length. cbv zeta. cbn [length_passes].
    pose proof (length_sweep_spec w ["COM15"%string] v 100000
                  ltac:(unfold GoInt.max_int; lia)
                  (Z.to_nat (100000 - 100)) 100 0 s2
                  ltac:(unfold GoInt.min_int; lia) (Nat.le_refl _)) as H.
    destruct (length_sweep (Z.to_nat (100000 - 100)) w ["COM15"%string] v
                100000 100 0 s2) as [[[x|x]|p|] s3] eqn:Esweep.
    - exfalso. destruct H as [Hrun _].
      destruct (succeeds_inside _ _ _ _ _ _ _ Hrun 10000 ltac:(lia))
        as (s0 & d & s4 & Htx).
      destruct (oversize_panics w "COM15"%string [] 10000 v s0 ltac:(lia))
        as [s5 Hp].
      + apply echoes_open. exact Hecho.
      + rewrite packet_length.
        pose proof (checksum_length (payload_at w s0 10000)).
        unfold buffer_size. lia.
      + rewrite Hp in Htx. discriminate.
    - exfalso. destruct H as (f & s4 & Hf & _ & [d Hfail] & _).
      destruct (echo_transmission_cases w "COM15"%string [] f v s4 Hecho
                  ltac:(lia)) as [(ds & s5 & Hr)|[_ [s5 Hr]]];
        rewrite Hr in Hfail; discriminate.
    - destruct H as (f & s4 & Hf & Hp).
      destruct (echo_transmission_cases w "COM15"%string [] f v s4 Hecho
                  ltac:(lia)) as [(ds & s5 & Hr)|[Hbig [s5 Hr]]].
      + rewrite Hr in Hp. discriminate.
      + assert (Hpx : p = Runtime (SliceBounds
                                     (List.length (packet_at w s4 f))
                                     buffer_size)) by congruence.
        exists (List.length (packet_at w s4 f)), s3.
        split; [exact Hbig|].
        rewrite (bind_panicked _ _ _ _ _ Esweep), Hpx. reflexivity.
    - contradiction. }
  destruct Hlength as (hi & s3 & Hhi & Hlength).
  exists hi. split; [exact Hhi|].
  unfold main. cbv zeta.
  rewrite (bind_returned _ _ _ _ _ Hspeed).
  unfold bind at 1. unfold Println at 1. fold s2.
  rewrite (bind_panicked _ _ _ _ _ Hlength). reflexivity.
Qed.

Lemma loopback_echoes : echoes loopback.
Proof. intros n port baud packet. split; reflexivity. Qed.

Lemma main_panics_on_perfect_link_witness :
  echoes loopback
  /\ (Z.to_nat 990400 <= Z.to_nat 990400)%nat
  /\ exists hi,
       (buffer_size < hi)%nat
       /\ fst (main (Z.to_nat 990400) loopback initial)
          = Panicked (Runtime (SliceBounds hi buffer_size)).
Proof.
  split; [exact loopback_echoes|]. split; [apply Nat.le_refl|].
  exact (main_panics_on_perfect_link (Z.to_nat 990400) loopback initial
           loopback_echoes (Nat.le_refl _)).
Defined.
